(** * syncrup_server: repository status lifecycle and indexing client

    A shallow embedding of [src/services/ExternalAIService.ts] (the
    external indexing client) and of [ProjectController] (the status
    orchestrator), with the properties of the specification proved on
    the embedded code. *)

From Stdlib Require Import ZArith Ascii String List Bool Lia.
From stdpp Require Import base option list gmap strings pretty.
From Equations Require Import Equations.

Local Open Scope Z_scope.

(** A test together with the fact that it came out as it did, for the
    loop whose termination depends on its guard. *)
Definition inspect {A : Type} (a : A) : {b : A | a = b} := exist _ a eq_refl.

(** ** JavaScript strings and the regular-expression fragment in use

    Strings are sequences of 8-bit characters. The prefixes and the
    patterns of the code are ASCII, and neither a code unit from 128
    up nor a byte from 128 up matches any of them, so nothing depends
    on how characters outside ASCII are encoded. *)

Module Js.

(** [a || b] on strings: the empty string is falsy, and so is
    [undefined]. *)
Definition truthyStr (o : option string) : bool :=
  match o with
  | Some s => negb (String.eqb s "")
  | None => false
  end.

Definition orStr (a : option string) (b : string) : string :=
  match a with
  | Some s => if String.eqb s "" then b else s
  | None => b
  end.

(** [statusCode && ...] on an optional number: [undefined] and [0]
    are falsy. *)
Definition truthyNum (o : option Z) : bool :=
  match o with
  | Some n => negb (n =? 0)
  | None => false
  end.

(** [String.prototype.startsWith]. *)
Definition startsWith (s p : string) : bool := String.prefix p s.

(** [Math.pow(2, e)] on the small non-negative integers of the retry
    loop. *)
Definition pow2 (e : Z) : Z := 2 ^ e.

End Js.

Module Regex.

(** One pattern character: a literal or a class of ranges. *)
Inductive atom : Type :=
| Lit (c : ascii)
| Class (ranges : list (ascii * ascii)).

(** A pattern is a sequence of quantified atoms [a{n}]. *)
Definition pattern : Type := list (atom * nat).

(** Canonicalize of ECMAScript for the [i] flag without [u]: the
    upper-case mapping, which on code units below 128 touches only
    [a]..[z]; code units from 128 up never map into ASCII. *)
Definition canonicalize (c : ascii) : ascii :=
  let n := nat_of_ascii c in
  if (97 <=? n)%nat && (n <=? 122)%nat then ascii_of_nat (n - 32) else c.

(** The members of a range, in order. *)
Definition rangeMembers (r : ascii * ascii) : list ascii :=
  map (fun k => ascii_of_nat (nat_of_ascii (fst r) + k))
      (seq 0 (S (nat_of_ascii (snd r)) - nat_of_ascii (fst r))).

Definition sameChar (ignoreCase : bool) (a b : ascii) : bool :=
  if ignoreCase then Ascii.eqb (canonicalize a) (canonicalize b)
  else Ascii.eqb a b.

Definition atomMatches (ignoreCase : bool) (a : atom) (c : ascii) : bool :=
  match a with
  | Lit l => sameChar ignoreCase l c
  | Class rs =>
      existsb (fun r => existsb (fun m => sameChar ignoreCase m c)
                                (rangeMembers r)) rs
  end.

(** [a{n}] at the head of the input: the rest of the input when [n]
    characters matched. *)
Fixpoint matchRepeat (ignoreCase : bool) (a : atom) (n : nat) (s : string)
  : option string :=
  match n with
  | O => Some s
  | S n' =>
      match s with
      | String c s' =>
          if atomMatches ignoreCase a c
          then matchRepeat ignoreCase a n' s' else None
      | EmptyString => None
      end
  end.

Fixpoint matchHere (ignoreCase : bool) (p : pattern) (s : string)
  : option string :=
  match p with
  | [] => Some s
  | (a, n) :: p' =>
      match matchRepeat ignoreCase a n s with
      | Some s' => matchHere ignoreCase p' s'
      | None => None
      end
  end.

(** [/^p$/.test(s)]: without the [m] flag [$] is the end of input. *)
Definition testWhole (ignoreCase : bool) (p : pattern) (s : string) : bool :=
  match matchHere ignoreCase p s with
  | Some EmptyString => true
  | _ => false
  end.

(** [/^p/.test(s)]. *)
Definition testPrefix (ignoreCase : bool) (p : pattern) (s : string) : bool :=
  match matchHere ignoreCase p s with
  | Some _ => true
  | None => false
  end.

End Regex.

(** ** ExternalAIService *)

Module ExternalAIService.

Import Regex.

(** The value the promise of [sendRepositoryToAI] resolves to. *)
Record SendResult : Type := mkResult {
  success : bool;
  error : option string
}.

(** What [axios.post] can do: resolve with a response, or reject with
    an error that may carry a response, a code and a message. *)
Record ErrorResponse : Type := mkErrorResponse {
  status : Z;
  data_message : option string
}.

Record AxiosError : Type := mkAxiosError {
  response : option ErrorResponse;
  code : option string;
  message : string
}.

Inductive AxiosOutcome : Type :=
| Resolved (responseStatus : Z)
| Rejected (e : AxiosError).

(** The observable effects of one call of the client. *)
Inductive ClientEvent : Type :=
| Post (endpoint project_id repo_url : string) (timeout : Z)
| Sleep (ms : Z).

Definition isPost (e : ClientEvent) : bool :=
  match e with Post _ _ _ _ => true | Sleep _ => false end.

Definition networkAttempts (log : list ClientEvent) : nat :=
  length (List.filter isPost log).

Definition backoffWaits (log : list ClientEvent) : list Z :=
  omap (fun e => match e with Sleep ms => Some ms | _ => None end) log.

(** [/^[0-9a-f]{8}-[0-9a-f]{4}-[0-9a-f]{4}-[0-9a-f]{4}-[0-9a-f]{12}$/i] *)
Definition hexClass : atom :=
  Class [("0"%char, "9"%char); ("a"%char, "f"%char)].

Definition uuidRegex : pattern :=
  [ (hexClass, 8%nat); (Lit "-", 1%nat);
    (hexClass, 4%nat); (Lit "-", 1%nat);
    (hexClass, 4%nat); (Lit "-", 1%nat);
    (hexClass, 4%nat); (Lit "-", 1%nat);
    (hexClass, 12%nat) ].

Definition isValidUUID (uuid : string) : bool :=
  testWhole true uuidRegex uuid.

(** [/^[a-zA-Z]:\\/] *)
Definition windowsPathRegex : pattern :=
  [ (Class [("a"%char, "z"%char); ("A"%char, "Z"%char)], 1%nat);
    (Lit ":", 1%nat);
    (Lit "\", 1%nat) ].

Definition isValidGitUrl (url : string) : bool :=
  Js.startsWith url "http://"
  || Js.startsWith url "https://"
  || Js.startsWith url "git@"
  || Js.startsWith url "/"
  || testPrefix false windowsPathRegex url.

Definition maxRetries : Z := 3.

Section Client.

(** [this.apiUrl], from the environment. *)
Variable apiUrl : string.

(** The network: the outcome of the [k]-th [axios.post] of this
    call, counted from 0. *)
Variable net : nat -> AxiosOutcome.

Definition endpoint : string := apiUrl +:+ "/add-repository".

(** What one turn of the [for] loop does. *)
Inductive Turn : Type :=
| Return (r : SendResult)
| NextAttempt.

Definition statusCode (e : AxiosError) : option Z :=
  status <$> response e.

Definition responseDataMessage (e : AxiosError) : option string :=
  response e ≫= data_message.

(** The [catch] block of the loop body. A client error (a status in
    400..499) returns at once; [undefined >= 400] is false, so the
    comparisons only count for a status that is there. The branches
    on a status from 500 up, on [error.code] and on anything else only
    differ in what they log; then the last attempt returns, and any
    other attempt sleeps. *)
Definition onError (attempt : Z) (e : AxiosError) (log : list ClientEvent)
  : Turn * list ClientEvent :=
  let isLastAttempt := attempt =? maxRetries in
  let sc := statusCode e in
  if Js.truthyNum sc && (400 <=? default 0 sc) && (default 0 sc <? 500)
  then (Return (mkResult false
          (Some ("Client error: "
                 +:+ Js.orStr (responseDataMessage e) (message e)))), log)
  else if isLastAttempt
  then (Return (mkResult false
          (Some (Js.orStr (Some (Js.orStr (responseDataMessage e)
                                         (message e)))
                          "Unknown error"))), log)
  else
    let delay := Js.pow2 (attempt - 1) * 1000 in
    (NextAttempt, log ++ [Sleep delay]).

(** The body of the [for] loop: one [axios.post] and its handling. *)
Definition loopBody (projectId repoUrl : string) (attempt : Z)
           (log : list ClientEvent) : Turn * list ClientEvent :=
  let outcome := net (networkAttempts log) in
  let log := log ++ [Post endpoint projectId repoUrl 30000] in
  match outcome with
  | Resolved st =>
      if (st =? 200) || (st =? 201)
      then (Return (mkResult true None), log)
      else (Return (mkResult false
              (Some ("Unexpected status: " +:+ pretty st))), log)
  | Rejected e => onError attempt e log
  end.

(** The [for] loop, from [attempt] on; it ends because [attempt]
    grows towards [maxRetries]. *)
Equations? retryLoop (projectId repoUrl : string) (attempt : Z)
           (log : list ClientEvent)
  : SendResult * list ClientEvent
  by wf (Z.to_nat (maxRetries + 1 - attempt)) lt :=
  retryLoop projectId repoUrl attempt log
    with inspect (attempt <=? maxRetries) := {
    | exist _ true Hle =>
        match loopBody projectId repoUrl attempt log with
        | (Return r, log') => (r, log')
        | (NextAttempt, log') =>
            retryLoop projectId repoUrl (attempt + 1) log'
        end
    | exist _ false _ =>
        (mkResult false (Some "Max retries exceeded"), log)
    }.
Proof. apply Z.leb_le in Hle. lia. Qed.

Definition sendRepositoryToAI (projectId repoUrl repoId : string)
  : SendResult * list ClientEvent :=
  if negb (isValidUUID projectId)
  then (mkResult false (Some "Invalid project ID format"), [])
  else if negb (isValidGitUrl repoUrl)
  then (mkResult false (Some "Invalid Git URL format"), [])
  else retryLoop projectId repoUrl 1 [].

End Client.

End ExternalAIService.

(** ** ProjectService: the repository and dependency store *)

Module ProjectService.

Inductive Status : Type := UNTRACKED | PENDING | INDEXED | FAILED.

#[global] Instance Status_eq_dec : EqDecision Status.
Proof. solve_decision. Defined.

Record Repository : Type := mkRepository {
  id : string;
  projectId : string;
  name : string;
  url : string;
  type : string;
  status : Status
}.

Record Dependency : Type := mkDependency {
  sourceRepoId : string;
  targetRepoId : string
}.

(** The stored columns of a repository; its identifier is the key it
    is stored under. *)
Record Row : Type := mkRow {
  rowProjectId : string;
  rowName : string;
  rowUrl : string;
  rowType : string;
  rowStatus : Status
}.

Definition toRepository (repoId : string) (r : Row) : Repository :=
  mkRepository repoId (rowProjectId r) (rowName r) (rowUrl r) (rowType r)
               (rowStatus r).

Definition rowWithStatus (r : Row) (s : Status) : Row :=
  mkRow (rowProjectId r) (rowName r) (rowUrl r) (rowType r) s.

Record Store : Type := mkStore {
  repos : gmap string Row;
  deps : gset (string * string);
  nextId : N
}.

Definition empty : Store := mkStore ∅ ∅ 0%N.

(** A thrown [Error] and its message. *)
Inductive Exn : Type := Error (message : string).

Definition messageOf (e : Exn) : string :=
  match e with Error m => m end.

(** A store operation either throws, leaving the store as it was, or
    returns a value and the store after it. *)
Definition Op (A : Type) : Type := Store -> Exn + (A * Store).

Section Service.

(** Modelled from the spec: [ProjectService.addRepo] is not among the
    sources. The controller's error path shows that it can throw (an
    [Error] whose message may start with SERVER_REQUIRED); the spec
    is silent on when, so the refusal is a parameter: the message
    thrown for a store, project, name, url and type, if any. *)
Variable refusal : Store -> string -> string -> string -> string
                   -> option string.

(** Modelled from the spec: [ProjectService.addRepo] is not among the
    sources. "addRepository(projectId, name, url, type) → Repository
    with initial status"; the controller passes the initial status
    in, and the store gives the repository its identifier. *)
Definition addRepo (projectId name url type : string)
           (initialStatus : Status) : Op Repository :=
  fun s =>
    match refusal s projectId name url type with
    | Some msg => inl (Error msg)
    | None =>
        let repoId := "repo-" +:+ pretty (nextId s) in
        let row := mkRow projectId name url type initialStatus in
        inr (toRepository repoId row,
             mkStore (<[repoId := row]> (repos s)) (deps s)
                     (N.succ (nextId s)))
    end.

End Service.

(** Modelled from the spec: [ProjectService.getRepo] is not among the
    sources. "getRepository(repoId) → Repository | NotFound"; the
    controller tests the result for null, so an unknown identifier
    gives no repository rather than an exception. *)
Definition getRepo (repoId : string) : Op (option Repository) :=
  fun s => inr (toRepository repoId <$> repos s !! repoId, s).

(** Modelled from the spec: [ProjectService.updateRepoStatus] is not
    among the sources. It writes the status of a known repository and
    returns the record as written; an unknown identifier is NotFound. *)
Definition updateRepoStatus (repoId : string) (st : Status)
  : Op Repository :=
  fun s =>
    match repos s !! repoId with
    | Some r =>
        let r' := rowWithStatus r st in
        inr (toRepository repoId r',
             mkStore (<[repoId := r']> (repos s)) (deps s) (nextId s))
    | None => inl (Error "NotFound: repository")
    end.

(** Modelled from the spec: [ProjectService.addDependency] is not
    among the sources. "fails with NotFound if either repository id is
    unknown; idempotent on duplicate edges ... must not create
    parallel edges". *)
Definition addDependency (sourceId targetId : string) : Op Dependency :=
  fun s =>
    match repos s !! sourceId, repos s !! targetId with
    | Some _, Some _ =>
        inr (mkDependency sourceId targetId,
             mkStore (repos s) ({[ (sourceId, targetId) ]} ∪ deps s)
                     (nextId s))
    | _, _ => inl (Error "NotFound: repository")
    end.

(** Modelled from the spec: [ProjectService.removeDependency] is not
    among the sources. "fails with NotFound if the edge does not
    exist; otherwise removes it". *)
Definition removeDependency (sourceId targetId : string) : Op unit :=
  fun s =>
    if decide ((sourceId, targetId) ∈ deps s)
    then inr (tt, mkStore (repos s) (deps s ∖ {[ (sourceId, targetId) ]})
                          (nextId s))
    else inl (Error "NotFound: dependency").

(** Modelled from the spec: [ProjectService.countIncomingDependencies]
    is not among the sources. "incomingDegree(repoId) → integer ≥ 0:
    count of edges whose target is repoId". *)
Definition incomingDegree (s : Store) (repoId : string) : nat :=
  size (filter (fun e => e.2 = repoId) (deps s)).

Definition countIncomingDependencies (repoId : string) : Op nat :=
  fun s => inr (incomingDegree s repoId, s).

Definition statusOf (s : Store) (repoId : string) : option Status :=
  rowStatus <$> repos s !! repoId.

End ProjectService.

(** ** ProjectController: the status orchestrator *)

Module ProjectController.

Import ProjectService.
Export ExternalAIService(SendResult, mkResult, success, error,
                         AxiosOutcome, ClientEvent).

(** A call of [sendRepositoryToAI] whose promise has not settled yet,
    with the values its callbacks close over. *)
Record Task : Type := mkTask {
  taskProjectId : string;
  taskUrl : string;
  taskRepoId : string
}.

(** What an observer of the server can see, in the order it happens. *)
Inductive Event : Type :=
| StatusCommitted (repoId : string) (st : Status)
| Emit (event projectId : string) (repository : Repository)
| SubmitBegin (task : nat) (projectId repoUrl repoId : string)
| Network (task : nat) (io : ClientEvent)
| SubmitResolved (task : nat) (result : SendResult).

Record World : Type := mkWorld {
  store : Store;
  inflight : gmap nat Task;
  nextTask : nat;
  trace : list Event
}.

Definition initial : World := mkWorld ProjectService.empty ∅ 0 [].

(** Handlers run in a state monad over the world with exceptions; a
    throw keeps the effects that came before it. *)
Definition M (A : Type) : Type := World -> (Exn + A) * World.

#[global] Instance M_ret : MRet M := fun A a w => (inr a, w).

#[global] Instance M_bind : MBind M := fun A B f m w =>
  match m w with
  | (inr a, w') => f a w'
  | (inl e, w') => (inl e, w')
  end.

Definition tryCatch {A : Type} (body : M A) (handler : Exn -> M A) : M A :=
  fun w =>
    match body w with
    | (inr a, w') => (inr a, w')
    | (inl e, w') => handler e w'
    end.

Definition record (evs : list Event) : M unit :=
  fun w => (inr tt, mkWorld (store w) (inflight w) (nextTask w)
                            (trace w ++ evs)).

(** A store operation that commits as a whole or throws. *)
Definition await {A : Type} (op : Op A) : M A :=
  fun w =>
    match op (store w) with
    | inr (a, s') =>
        (inr a, mkWorld s' (inflight w) (nextTask w) (trace w))
    | inl e => (inl e, w)
    end.

(** [io.emit(event, { projectId, repository })] *)
Definition emit (event projectId : string) (repository : Repository)
  : M unit :=
  record [Emit event projectId repository].

(** The call [aiService.sendRepositoryToAI(...)] without [await]: the
    submission begins, and its callbacks wait for the promise. *)
Definition sendInBackground (projectId repoUrl repoId : string) : M unit :=
  fun w =>
    let k := nextTask w in
    (inr tt, mkWorld (store w)
               (<[k := mkTask projectId repoUrl repoId]> (inflight w))
               (S k)
               (trace w ++ [SubmitBegin k projectId repoUrl repoId])).

(** The submissions begun in a trace, in order. *)
Definition submissions (tr : list Event) : list (string * string * string) :=
  omap (fun e => match e with
                 | SubmitBegin _ p u r => Some (p, u, r)
                 | _ => None
                 end) tr.

(** HTTP responses of the handlers. *)
Inductive Body : Type :=
| RepositoryBody (r : Repository)
| DependencyBody (d : Dependency)
| SuccessBody
| ErrorBody (msg : string).

Record Response : Type := mkResponse {
  httpStatus : Z;
  body : Body
}.

Definition json (b : Body) : Response := mkResponse 200 b.

(** A store write of a status, and its entry in the trace. *)
Definition commitStatus (repoId : string) (st : Status) : M Repository :=
  r ← await (updateRepoStatus repoId st);
  record [StatusCommitted (id r) st];;
  mret r.

(** The [.then(...)] callback of a submission. *)
Definition onFulfilled (t : Task) (result : SendResult) : M unit :=
  if success result
  then
    updatedRepo ← commitStatus (taskRepoId t) INDEXED;
    emit "repository:updated" (taskProjectId t) updatedRepo
  else
    failedRepo ← commitStatus (taskRepoId t) FAILED;
    emit "repository:updated" (taskProjectId t) failedRepo.

(** The [.catch(...)] callback of a submission. *)
Definition onRejected (t : Task) (err : Exn) : M unit :=
  failedRepo ← commitStatus (taskRepoId t) FAILED;
  emit "repository:updated" (taskProjectId t) failedRepo.

(** The handlers. Each runs to completion once it has started: the
    store operations it awaits are not interleaved with other requests
    (section 5 of the specification). What is left running when a
    handler returns is the submission it began, which settles later. *)

Section Handlers.

(** When the store refuses a creation; see [ProjectService.addRepo]. *)
Variable refusal : Store -> string -> string -> string -> string
                   -> option string.

(** [process.env.EXTERNAL_AI_API_URL] *)
Variable EXTERNAL_AI_API_URL : option string.

Definition apiUrl : string :=
  Js.orStr EXTERNAL_AI_API_URL "http://localhost:8000".

(** [addRepo]: the creation commits the initial status. *)
Definition addRepo (projectId name url type : string) : M Response :=
  tryCatch
    (let initialStatus :=
       if String.eqb type "SERVER" then PENDING else UNTRACKED in
     repo ← await (ProjectService.addRepo refusal projectId name url type
                                          initialStatus);
     record [StatusCommitted (id repo) initialStatus];;
     emit "repository:added" projectId repo;;
     (if String.eqb type "SERVER"
      then sendInBackground projectId url (id repo)
      else mret tt);;
     mret (json (RepositoryBody repo)))
    (fun error =>
       let msg := messageOf error in
       if Js.startsWith msg "SERVER_REQUIRED"
       then mret (mkResponse 400 (ErrorBody msg))
       else mret (mkResponse 500 (ErrorBody msg))).

Definition createDependency (sourceRepoId targetRepoId : string)
  : M Response :=
  tryCatch
    (dep ← await (addDependency sourceRepoId targetRepoId);
     targetRepo ← await (getRepo targetRepoId);
     match targetRepo with
     | Some targetRepo =>
         if decide (status targetRepo = UNTRACKED)
         then
           pendingRepo ← commitStatus (id targetRepo) PENDING;
           emit "repository:updated" (projectId pendingRepo) pendingRepo;;
           sendInBackground (projectId pendingRepo) (url pendingRepo)
                            (id pendingRepo)
         else mret tt
     | None => mret tt
     end;;
     mret (json (DependencyBody dep)))
    (fun error => mret (mkResponse 500 (ErrorBody (messageOf error)))).

Definition deleteDependency (sourceRepoId targetRepoId : string)
  : M Response :=
  tryCatch
    (await (removeDependency sourceRepoId targetRepoId);;
     incomingCount ← await (countIncomingDependencies targetRepoId);
     (if (incomingCount =? 0)%nat
      then
        targetRepo ← await (getRepo targetRepoId);
        match targetRepo with
        | Some targetRepo =>
            if negb (String.eqb (type targetRepo) "SERVER")
            then
              untrackedRepo ← commitStatus (id targetRepo) UNTRACKED;
              emit "repository:updated" (projectId untrackedRepo)
                   untrackedRepo
            else mret tt
        | None => mret tt
        end
      else mret tt);;
     mret (json SuccessBody))
    (fun error => mret (mkResponse 500 (ErrorBody (messageOf error)))).

Local Unset Elimination Schemes.

(** What [fetch(endpoint)] followed by [response.json()] can do:
    [fetch] rejects, or it resolves with a status and a body that
    parses as JSON or does not. *)
Inductive Json : Type :=
| JNull
| JBool (b : bool)
| JNumber (n : Z)
| JString (s : string)
| JArray (items : list Json)
| JObject (fields : list (string * Json)).

Local Set Elimination Schemes.

Inductive FetchOutcome : Type :=
| FetchRejected (message : string)
| FetchResponse (status : Z) (parsedBody : option Json).

(** [response.ok] *)
Definition ok (status : Z) : bool := (200 <=? status) && (status <=? 299).

Definition emptyGraph : Json :=
  JObject [("nodes", JArray []); ("edges", JArray [])].

Inductive GraphResponse : Type :=
| GraphJson (httpStatus : Z) (data : Json)
| GraphError (httpStatus : Z) (msg : string).

(** [getGraph]: [projectId] is [req.query.projectId], and [fetch] is
    the outcome of the request to the endpoint it is given. Nothing
    outside the inner [try] throws, so the outer [catch] (status 500)
    has no case here. *)
Definition graphEndpoint (projectId : option string) : string :=
  let aiUrl := Js.orStr EXTERNAL_AI_API_URL "http://localhost:8000" in
  aiUrl +:+ "/graph-data?project_id=" +:+ default "" projectId.

Definition getGraph (projectId : option string)
           (fetch : string -> FetchOutcome) : GraphResponse :=
  if negb (Js.truthyStr projectId)
  then GraphError 400 "projectId is required"
  else
    let endpoint := graphEndpoint projectId in
    match fetch endpoint with
    | FetchResponse status parsed =>
        if negb (ok status) then GraphJson 200 emptyGraph
        else match parsed with
             | Some data => GraphJson 200 data
             | None => GraphJson 200 emptyGraph
             end
    | FetchRejected _ => GraphJson 200 emptyGraph
    end.

(** The promise of submission [k] settles: the client has run
    against the network [net], and the callbacks chained on the
    promise run. An exception out of [.catch] is an unhandled
    rejection and changes nothing further. *)
Definition settle (k : nat) (net : nat -> AxiosOutcome) : M unit :=
  fun w =>
    match inflight w !! k with
    | None => (inr tt, w)
    | Some t =>
        let '(result, io) :=
          ExternalAIService.sendRepositoryToAI apiUrl net
            (taskProjectId t) (taskUrl t) (taskRepoId t) in
        let w1 := mkWorld (store w) (delete k (inflight w)) (nextTask w)
                    (trace w ++ (Network k <$> io)
                             ++ [SubmitResolved k result]) in
        tryCatch (tryCatch (onFulfilled t result) (onRejected t))
                 (fun _ => mret tt) w1
    end.

(** The requests and completions that drive the server. *)
Inductive Request : Type :=
| AddRepo (projectId name url type : string)
| CreateDependency (sourceRepoId targetRepoId : string)
| DeleteDependency (sourceRepoId targetRepoId : string)
| Settle (task : nat) (net : nat -> AxiosOutcome).

Definition step (w : World) (q : Request) : World :=
  match q with
  | AddRepo p n u t => snd (addRepo p n u t w)
  | CreateDependency s t => snd (createDependency s t w)
  | DeleteDependency s t => snd (deleteDependency s t w)
  | Settle k net => snd (settle k net w)
  end.

Definition run (qs : list Request) (w : World) : World :=
  fold_left step qs w.

End Handlers.

End ProjectController.

(** ** The validation rules as the specification words them *)

Module Spec.

(** A hexadecimal digit, in either case. *)
Definition isHexDigit (c : ascii) : bool :=
  let n := nat_of_ascii c in
  ((48 <=? n) && (n <=? 57)          (* 0-9 *)
   || (97 <=? n) && (n <=? 102)      (* a-f *)
   || (65 <=? n) && (n <=? 70))%nat. (* A-F *)

Definition isLetter (c : ascii) : bool :=
  let n := nat_of_ascii c in
  ((97 <=? n) && (n <=? 122) || (65 <=? n) && (n <=? 90))%nat.

Fixpoint allChars (p : ascii -> bool) (s : string) : bool :=
  match s with
  | EmptyString => true
  | String c s' => p c && allChars p s'
  end.

(** The groups of a string between occurrences of a separator. *)
Fixpoint splitOn (sep : ascii) (s : string) : list string :=
  match s with
  | EmptyString => [EmptyString]
  | String c s' =>
      if Ascii.eqb c sep then EmptyString :: splitOn sep s'
      else match splitOn sep s' with
           | g :: gs => String c g :: gs
           | [] => [String c EmptyString]
           end
  end.

Definition hexGroup (n : nat) (g : string) : bool :=
  (String.length g =? n)%nat && allChars isHexDigit g.

(** "the canonical UUID textual form (8-4-4-4-12 hexadecimal groups,
    case-insensitive)" *)
Definition canonicalUuidForm (s : string) : bool :=
  match splitOn "-" s with
  | [g1; g2; g3; g4; g5] =>
      hexGroup 8 g1 && hexGroup 4 g2 && hexGroup 4 g3 && hexGroup 4 g4
      && hexGroup 12 g5
  | _ => false
  end.

(** A string made of five hyphen-separated groups of hexadecimal
    digits of lengths 8, 4, 4, 4 and 12. *)
Definition fiveGroups (s : string) : Prop :=
  exists g1 g2 g3 g4 g5,
    s = g1 +:+ "-" +:+ g2 +:+ "-" +:+ g3 +:+ "-" +:+ g4 +:+ "-" +:+ g5
    /\ hexGroup 8 g1 = true /\ hexGroup 4 g2 = true /\ hexGroup 4 g3 = true
    /\ hexGroup 4 g4 = true /\ hexGroup 12 g5 = true.

(** "a drive-letter absolute path (<letter>:\)" *)
Definition driveLetterPath (s : string) : bool :=
  match s with
  | String c (String ":" (String "\" _)) => isLetter c
  | _ => false
  end.

(** "begins with http://, https://, git@, an absolute POSIX path (/),
    or a drive-letter absolute path" *)
Definition sourceLocatorForm (s : string) : bool :=
  String.prefix "http://" s
  || String.prefix "https://" s
  || String.prefix "git@" s
  || String.prefix "/" s
  || driveLetterPath s.

(** The HTTP status carried by a failed attempt. axios, as
    configured, rejects every response whose status is outside
    200..299, so an error status always comes as a rejection. *)
Definition errorStatus (o : ExternalAIService.AxiosOutcome) : option Z :=
  match o with
  | ExternalAIService.Rejected e => ExternalAIService.statusCode e
  | ExternalAIService.Resolved _ => None
  end.

Definition http4xx (o : ExternalAIService.AxiosOutcome) : bool :=
  match errorStatus o with
  | Some s => (400 <=? s) && (s <=? 499)
  | None => false
  end.

Definition http5xx (o : ExternalAIService.AxiosOutcome) : bool :=
  match errorStatus o with
  | Some s => (500 <=? s) && (s <=? 599)
  | None => false
  end.

End Spec.

(** ** Properties of traces and of the store *)

Module Observations.

Import ProjectService ProjectController.



(** The outbound fetch of the graph failed: a network error, a status
    that is not OK, or a body that does not parse. *)
Definition fetchFails (o : FetchOutcome) : bool :=
  match o with
  | FetchRejected _ => true
  | FetchResponse status parsed =>
      negb (ok status) || negb (bool_decide (is_Some parsed))
  end.

(** No SERVER repository is UNTRACKED. *)
Definition serversTracked (s : Store) : Prop :=
  forall repoId r,
    repos s !! repoId = Some r -> rowType r = "SERVER" ->
    rowStatus r <> UNTRACKED.








End Observations.

(** ** Example data *)

Module Examples.

Import ExternalAIService ProjectService ProjectController.

Definition P : string := "123e4567-e89b-12d3-a456-426614174000".

Definition error503 : AxiosOutcome :=
  Rejected (mkAxiosError (Some (mkErrorResponse 503 None)) None
                         "Request failed with status code 503").

Definition error404 : AxiosOutcome :=
  Rejected (mkAxiosError (Some (mkErrorResponse 404 (Some "no such route")))
                         None "Request failed with status code 404").

(** 503 on tries 1 and 2, then 200. *)
Definition flaky (k : nat) : AxiosOutcome :=
  match k with
  | 0%nat | 1%nat => error503
  | _ => Resolved 200
  end.

Definition noRefusal (_ : Store) (_ _ _ _ : string) : option string := None.

(** The scenario of the specification: a server A, a web client B, a
    dependency A -> B, the indexing of B succeeding, and the
    dependency removed again. *)
Definition scenario : list Request :=
  [ AddRepo P "A" "https://git.example/a.git" "SERVER";
    AddRepo P "B" "https://git.example/b.git" "WEB";
    CreateDependency "repo-0" "repo-1";
    Settle 1 (fun _ => Resolved 200);
    DeleteDependency "repo-0" "repo-1" ].

(** The world once A and B exist, and once A -> B is indexed. *)
Definition twoRepos : World := run noRefusal None (take 2 scenario) initial.
Definition connected : World := run noRefusal None (take 4 scenario) initial.

Definition rowB (st : Status) : Row :=
  mkRow P "B" "https://git.example/b.git" "WEB" st.

Definition rowA : Row :=
  mkRow P "A" "https://git.example/a.git" "SERVER" PENDING.

End Examples.

(** ** The indexing client, attempt by attempt *)

Module Attempts.

Import ExternalAIService.

(** The one request the client sends, on every attempt. *)
Definition post (apiUrl projectId repoUrl : string) : ClientEvent :=
  Post (endpoint apiUrl) projectId repoUrl 30000.

(** A failed attempt the loop goes on from: a rejection that carries no
    status, or a status outside 400..499 (a server error, a network
    error, anything else). *)
Definition retryable (o : AxiosOutcome) : bool :=
  match o with
  | Rejected e =>
      match statusCode e with
      | Some s => (s <? 400) || (500 <=? s)
      | None => true
      end
  | Resolved _ => false
  end.

(** A rejection with a status in 400..499. *)
Definition clientError (o : AxiosOutcome) : bool :=
  match o with
  | Rejected e =>
      match statusCode e with
      | Some s => (400 <=? s) && (s <? 500)
      | None => false
      end
  | Resolved _ => false
  end.

(** The effects of a call that ends with its [n+1]-th attempt: the
    posts, with a wait of [2^i] seconds after the [i+1]-th of them. *)
Fixpoint attemptLog (apiUrl projectId repoUrl : string) (n : nat)
  : list ClientEvent :=
  match n with
  | O => [post apiUrl projectId repoUrl]
  | S n' =>
      attemptLog apiUrl projectId repoUrl n'
      ++ [Sleep (2 ^ Z.of_nat n' * 1000); post apiUrl projectId repoUrl]
  end.

(** A string with a function applied to each of its characters. *)
Fixpoint mapChars (f : ascii -> ascii) (s : string) : string :=
  match s with
  | EmptyString => EmptyString
  | String c s' => String (f c) (mapChars f s')
  end.

End Attempts.

(** ** utils/rulesAi: the rules a file is checked against *)

Module RulesAi.

Import ProjectService(Exn, Error, messageOf).

Record Rule : Type := mkRule {
  id : string;
  name : string;
  description : string;
  severity : option string;
  enabled : option bool;
  filePattern : option string
}.

(** The [rules] argument: an object with a [rules] array, an array, or
    anything else (the old format). *)
Inductive RulesInput : Type :=
| Wrapped (rules : list Rule)
| Direct (rules : list Rule)
| OldFormat.

(** [r.enabled !== false] *)
Definition isEnabled (r : Rule) : bool :=
  match enabled r with
  | Some false => false
  | _ => true
  end.

Definition normalizeRules (rules : RulesInput) : list Rule :=
  match rules with
  | Wrapped rs => List.filter isEnabled rs
  | Direct rs => List.filter isEnabled rs
  | OldFormat => []
  end.

(** The rules an input lists, enabled or not. *)
Definition listed (rules : RulesInput) : list Rule :=
  match rules with
  | Wrapped rs => rs
  | Direct rs => rs
  | OldFormat => []
  end.

(** The number of characters a pattern of the fragment consumes. *)
Definition width (p : Regex.pattern) : nat :=
  foldr (fun an acc => (snd an + acc)%nat) 0%nat p.

(** [s.replace(/p/g, by)] for a pattern that consumes at least one
    character: from left to right, each match is replaced and the
    search goes on after it. [skip] counts the characters of the
    current match that are still to be passed over. *)
Fixpoint replaceFrom (p : Regex.pattern) (by_ : string) (skip : nat)
         (s : string) : string :=
  match s with
  | EmptyString => EmptyString
  | String c s' =>
      match skip with
      | S k => replaceFrom p by_ k s'
      | O =>
          match Regex.matchHere false p s with
          | Some _ => by_ +:+ replaceFrom p by_ (width p - 1) s'
          | None => String c (replaceFrom p by_ 0 s')
          end
      end
  end.

Definition replaceAll (p : Regex.pattern) (by_ : string) (s : string)
  : string :=
  replaceFrom p by_ 0 s.

(** The source of the regular expression built from a file pattern:
    [.replace(/\*\*/g, '.*').replace(/\*/g, '[^/]*').replace(/\./g, '\\.')] *)
Definition regExpSource (filePattern : string) : string :=
  replaceAll [(Regex.Lit ".", 1%nat)] "\."
    (replaceAll [(Regex.Lit "*", 1%nat)] "[^/]*"
       (replaceAll [(Regex.Lit "*", 2%nat)] ".*" filePattern)).

(** The same source, built in one pass from left to right. *)
Fixpoint onePass (s : string) : string :=
  match s with
  | EmptyString => EmptyString
  | String "*" (String "*" r) => "\.[^/]*" +:+ onePass r
  | String "*" r => "[^/]*" +:+ onePass r
  | String "." r => "\." +:+ onePass r
  | String c r => String c (onePass r)
  end.

Section Engine.

(** [new RegExp(source).test(input)]: the answer of the regular
    expression engine, or the SyntaxError of a source it rejects. *)
Variable RegExp_test : string -> string -> Exn + bool.

(** The callback of the filter: a rule without a file pattern
    passes, and any other rule passes when the regular expression built
    from its pattern matches the path. *)
Definition ruleApplies (rule : Rule) (filePath : string) : Exn + bool :=
  if negb (Js.truthyStr (filePattern rule)) then inr true
  else RegExp_test (regExpSource (default "" (filePattern rule))) filePath.

(** [rules.filter(rule => ...)]: the callback runs on the rules in
    order, and an exception out of it ends the filter. *)
Fixpoint filterRulesByFilePath (rules : list Rule) (filePath : string)
  : Exn + list Rule :=
  match rules with
  | [] => inr []
  | rule :: rest =>
      match ruleApplies rule filePath with
      | inl e => inl e
      | inr keep =>
          match filterRulesByFilePath rest filePath with
          | inl e => inl e
          | inr rest' => inr (if keep then rule :: rest' else rest')
          end
      end
  end.

(** The rules of a request that apply to a file, as
    [analyzeCodeWithAI] computes them. *)
Definition applicableRules (rules : RulesInput) (filePath : option string)
  : Exn + list Rule :=
  filterRulesByFilePath (normalizeRules rules) (Js.orStr filePath "").

End Engine.

End RulesAi.

(** ** RulesController *)

Module RulesController.

Import ProjectService(Exn, Error, messageOf).

Record Violation : Type := mkViolation {
  rule : string;
  line : Z;
  message : string;
  severity : option string
}.

(** A [Map] with string keys: the entries in insertion order. Setting
    a key that is there replaces its value where it stands. *)
Fixpoint mapSet {V : Type} (k : string) (v : V) (m : list (string * V))
  : list (string * V) :=
  match m with
  | [] => [(k, v)]
  | (k', v') :: m' =>
      if String.eqb k k' then (k, v) :: m' else (k', v') :: mapSet k v m'
  end.

(** [new Map(entries)] *)
Definition newMap {V : Type} (entries : list (string * V))
  : list (string * V) :=
  fold_left (fun m e => mapSet (fst e) (snd e) m) entries [].

(** [Array.from(map.values())] *)
Definition values {V : Type} (m : list (string * V)) : list V :=
  map snd m.

(** The key of a violation: the rule, a hyphen and the line. *)
Definition keyOf (v : Violation) : string :=
  rule v +:+ "-" +:+ pretty (line v).

Definition uniqueViolations (allViolations : list Violation)
  : list Violation :=
  values (newMap (map (fun v => (keyOf v, v)) allViolations)).

(** The last violation of a list with a given key. *)
Definition lastWithKey (vs : list Violation) (v : Violation) : Prop :=
  exists pre post,
    vs = pre ++ v :: post /\ forall v', v' ∈ post -> keyOf v' <> keyOf v.

Record AnalyzeRequest : Type := mkAnalyzeRequest {
  code : option string;
  fileType : option string;
  rules : option RulesAi.RulesInput;
  filePath : option string
}.

Inductive AnalyzeResponse : Type :=
| Analysis (violations : list Violation) (total ai : nat)
| AnalyzeError (httpStatus : Z) (error : string).

Section Analyze.

(** [analyzeCodeWithAI(code, fileType, rules, filePath)]: the
    violations the analysis resolves to, or the error it rejects
    with. *)
Variable analyzeCodeWithAI :
  string -> string -> RulesAi.RulesInput -> option string
  -> Exn + list Violation.

Definition analyze (req : AnalyzeRequest) : AnalyzeResponse :=
  match rules req with
  | Some rs =>
      if negb (Js.truthyStr (code req)) || negb (Js.truthyStr (fileType req))
      then AnalyzeError 400
             "Missing required fields: code, fileType, or rules"
      else
        match analyzeCodeWithAI (default "" (code req))
                                (default "" (fileType req)) rs
                                (filePath req) with
        | inr aiViolations =>
            let allViolations := aiViolations in
            let unique := uniqueViolations allViolations in
            Analysis unique (length unique) (length aiViolations)
        | inl error =>
            AnalyzeError 500
              (Js.orStr (Some (messageOf error)) "Failed to analyze code")
        end
  | None =>
      AnalyzeError 400 "Missing required fields: code, fileType, or rules"
  end.

End Analyze.

End RulesController.

(** ** What a step does to the store, the submissions and the trace *)

Module Lifecycle.

Import ProjectService ProjectController.

(** The status an outcome leads to. *)
Definition outcomeStatus (result : SendResult) : Status :=
  if success result then INDEXED else FAILED.

(** A repository that is PENDING has a submission in flight. *)
Definition pendingHasSubmission (w : World) : Prop :=
  forall r row,
    repos (store w) !! r = Some row -> rowStatus row = PENDING ->
    exists k t, inflight w !! k = Some t /\ taskRepoId t = r.

(** The submissions in flight are for repositories of the store, and
    were numbered before the next one. *)
Definition inflightKnown (w : World) : Prop :=
  forall k t,
    inflight w !! k = Some t ->
    is_Some (repos (store w) !! taskRepoId t).

Definition inflightBelow (w : World) : Prop :=
  forall k t, inflight w !! k = Some t -> (k < nextTask w)%nat.

Definition healthy (w : World) : Prop :=
  pendingHasSubmission w /\ inflightKnown w /\ inflightBelow w.


(** The five things one request or completion can do. *)
Inductive Transition (w w' : World) : list Event -> Prop :=
| TrQuiet :
    repos (store w') = repos (store w) ->
    inflight w' = inflight w -> nextTask w' = nextTask w ->
    Transition w w' []
| TrUntracked (r : string) (row : Row) (ev p : string) :
    repos (store w') = <[r := row]> (repos (store w)) ->
    rowStatus row = UNTRACKED ->
    inflight w' = inflight w -> nextTask w' = nextTask w ->
    Transition w w' [StatusCommitted r UNTRACKED;
                     Emit ev p (toRepository r row)]
| TrSubmit (r : string) (row : Row) (ev p u : string) :
    repos (store w') = <[r := row]> (repos (store w)) ->
    rowStatus row = PENDING ->
    inflight w' = <[nextTask w := mkTask p u r]> (inflight w) ->
    nextTask w' = S (nextTask w) ->
    Transition w w' [StatusCommitted r PENDING;
                     Emit ev p (toRepository r row);
                     SubmitBegin (nextTask w) p u r]
| TrSettle (k : nat) (t : Task) (row : Row) (res : SendResult)
           (io : list ClientEvent) :
    inflight w !! k = Some t ->
    repos (store w) !! taskRepoId t = Some row ->
    repos (store w')
    = <[taskRepoId t := rowWithStatus row (outcomeStatus res)]>
        (repos (store w)) ->
    inflight w' = delete k (inflight w) -> nextTask w' = nextTask w ->
    Transition w w'
      ((Network k <$> io)
       ++ [SubmitResolved k res;
           StatusCommitted (taskRepoId t) (outcomeStatus res);
           Emit "repository:updated" (taskProjectId t)
                (toRepository (taskRepoId t)
                              (rowWithStatus row (outcomeStatus res)))])
| TrDropped (k : nat) (t : Task) (res : SendResult)
            (io : list ClientEvent) :
    inflight w !! k = Some t ->
    repos (store w) !! taskRepoId t = None ->
    repos (store w') = repos (store w) ->
    inflight w' = delete k (inflight w) -> nextTask w' = nextTask w ->
    Transition w w' ((Network k <$> io) ++ [SubmitResolved k res]).

End Lifecycle.

(** ** More example data *)

Module MoreExamples.

Import ExternalAIService ProjectService ProjectController.
Import RulesAi RulesController Examples.

(** 503 on the first try, 404 on the second. *)
Definition thenNotFound (k : nat) : AxiosOutcome :=
  match k with
  | 0%nat => error503
  | _ => error404
  end.

(** A store that wants a server first. *)
Definition serverFirst (s : Store) (_ _ _ type : string) : option string :=
  if String.eqb type "SERVER" then None
  else if decide (repos s = ∅)
       then Some "SERVER_REQUIRED: add a server repository first"
       else None.

(** The world once A -> B is connected and B is being indexed. *)
Definition indexing : World := run noRefusal None (take 3 scenario) initial.

Definition taskA : Task := mkTask P "https://git.example/a.git" "repo-0".
Definition taskB : Task := mkTask P "https://git.example/b.git" "repo-1".

Definition noConsole : Rule :=
  mkRule "no-console" "No console" "Do not log to the console" None
         None None.

Definition hooksOnly : Rule :=
  mkRule "hooks-only" "Hooks" "Hooks live under src/hooks" None
         (Some true) (Some "src/hooks/*.ts").

Definition retired : Rule :=
  mkRule "retired" "Retired" "No longer checked" None (Some false)
         (Some "(").

(** An engine that rejects the source "(" and matches anything else
    against paths that begin with "src/hooks/". *)
Definition engine (source input : string) : Exn + bool :=
  if String.eqb source "(" then inl (Error "Invalid regular expression")
  else inr (String.prefix "src/hooks/" input).

Definition found : list Violation :=
  [ mkViolation "no-console" 12 "console.log in a component" None;
    mkViolation "hooks-only" 3 "hook outside src/hooks" None;
    mkViolation "no-console" 12 "console.log left in" (Some "warning") ].

Definition analysisRequest : AnalyzeRequest :=
  mkAnalyzeRequest (Some "console.log(1)") (Some "react")
                   (Some (Direct [noConsole; hooksOnly; retired]))
                   (Some "src/App.tsx").

End MoreExamples.

(** ** Facts about the validation rules *)

Module ValidationFacts.

Import Regex Spec ExternalAIService.

#[local] Arguments String.append !_ _ / : simpl nomatch.

Ltac each_ascii c :=
  destruct c as [[] [] [] [] [] [] [] []]; vm_compute; reflexivity.

Lemma hexClass_isHexDigit (c : ascii) :
  atomMatches true hexClass c = isHexDigit c.
Proof. each_ascii c. Qed.

Lemma dash_ignoreCase (c : ascii) :
  atomMatches true (Lit "-") c = Ascii.eqb c "-".
Proof. each_ascii c. Qed.

Lemma letterClass_isLetter (c : ascii) :
  atomMatches false
    (Class [("a"%char, "z"%char); ("A"%char, "Z"%char)]) c = isLetter c.
Proof. each_ascii c. Qed.

Lemma hex_not_dash (c : ascii) :
  isHexDigit c = true -> Ascii.eqb c "-" = false.
Proof. destruct c as [[] [] [] [] [] [] [] []]; vm_compute; congruence. Qed.

Lemma allChars_ext (p q : ascii -> bool) (s : string) :
  (forall c, p c = q c) -> allChars p s = allChars q s.
Proof.
  intros E. induction s as [|c s IH]; simpl; [done|]. rewrite E, IH. done.
Qed.

(** [a{n}] matches exactly the prefixes of [n] characters of [a]. *)
Lemma matchRepeat_Some (ic : bool) (a : atom) (n : nat) (s s' : string) :
  matchRepeat ic a n s = Some s' <->
  exists g, s = g +:+ s' /\ String.length g = n
            /\ allChars (atomMatches ic a) g = true.
Proof.
  revert s. induction n as [|n IH]; intros s; simpl.
  - split.
    + intros [= ->]. by exists EmptyString.
    + intros ([|c g] & -> & Hl & _); [done | discriminate].
  - destruct s as [|c s].
    + split; [done|]. intros ([|c g] & E & Hl & _); discriminate.
    + destruct (atomMatches ic a c) eqn:Hc.
      * rewrite IH. split.
        -- intros (g & -> & Hl & Hg). exists (String c g). simpl.
           rewrite Hc, Hl, Hg. done.
        -- intros ([|c' g] & E & Hl & Hg); [discriminate|].
           simpl in *. injection E as -> ->. injection Hl as Hl.
           apply andb_prop in Hg as [_ Hg]. by exists g.
      * split; [done|].
        intros ([|c' g] & E & Hl & Hg); [discriminate|].
        simpl in *. injection E as -> ->. by rewrite Hc in Hg.
Qed.

Lemma hexGroup_iff (n : nat) (g : string) :
  hexGroup n g = true <->
  String.length g = n /\ allChars (atomMatches true hexClass) g = true.
Proof.
  unfold hexGroup. rewrite andb_true_iff, Nat.eqb_eq.
  by rewrite (allChars_ext _ _ g hexClass_isHexDigit).
Qed.

Lemma matchDash (s s' : string) :
  matchRepeat true (Lit "-") 1 s = Some s' <-> s = "-" +:+ s'.
Proof.
  cbn [matchRepeat]. destruct s as [|c s]; [done|].
  rewrite dash_ignoreCase. destruct (Ascii.eqb_spec c "-") as [->|Hne].
  - split; [by intros [= ->] | by intros [= ->]].
  - split; [done|]. intros [= -> _]. done.
Qed.

Lemma append_nil_r (s : string) : s +:+ "" = s.
Proof. induction s; simpl; congruence. Qed.

Lemma isValidUUID_fiveGroups (s : string) :
  isValidUUID s = true <-> fiveGroups s.
Proof.
  unfold isValidUUID, testWhole, uuidRegex, fiveGroups. cbn [matchHere].
  split.
  - destruct (matchRepeat true hexClass 8 s) as [s1|] eqn:E1; [|done].
    destruct (matchRepeat true (Lit "-") 1 s1) as [s2|] eqn:E2; [|done].
    destruct (matchRepeat true hexClass 4 s2) as [s3|] eqn:E3; [|done].
    destruct (matchRepeat true (Lit "-") 1 s3) as [s4|] eqn:E4; [|done].
    destruct (matchRepeat true hexClass 4 s4) as [s5|] eqn:E5; [|done].
    destruct (matchRepeat true (Lit "-") 1 s5) as [s6|] eqn:E6; [|done].
    destruct (matchRepeat true hexClass 4 s6) as [s7|] eqn:E7; [|done].
    destruct (matchRepeat true (Lit "-") 1 s7) as [s8|] eqn:E8; [|done].
    destruct (matchRepeat true hexClass 12 s8) as [s9|] eqn:E9; [|done].
    destruct s9; [|done]. intros _.
    apply matchRepeat_Some in E1 as (g1 & -> & L1 & H1).
    apply matchDash in E2 as ->.
    apply matchRepeat_Some in E3 as (g2 & -> & L2 & H2).
    apply matchDash in E4 as ->.
    apply matchRepeat_Some in E5 as (g3 & -> & L3 & H3).
    apply matchDash in E6 as ->.
    apply matchRepeat_Some in E7 as (g4 & -> & L4 & H4).
    apply matchDash in E8 as ->.
    apply matchRepeat_Some in E9 as (g5 & -> & L5 & H5).
    exists g1, g2, g3, g4, g5. rewrite append_nil_r.
    rewrite !hexGroup_iff. done.
  - intros (g1 & g2 & g3 & g4 & g5 & -> & G1 & G2 & G3 & G4 & G5).
    apply hexGroup_iff in G1 as [L1 H1], G2 as [L2 H2], G3 as [L3 H3],
      G4 as [L4 H4], G5 as [L5 H5].
    assert (R : forall n g r, String.length g = n ->
              allChars (atomMatches true hexClass) g = true ->
              matchRepeat true hexClass n (g +:+ r) = Some r).
    { intros n g r L H. apply matchRepeat_Some. by exists g. }
    assert (D : forall r, matchRepeat true (Lit "-") 1 ("-" +:+ r) = Some r).
    { intros r. by apply matchDash. }
    rewrite (R 8%nat g1 _ L1 H1), D, (R 4%nat g2 _ L2 H2), D,
      (R 4%nat g3 _ L3 H3), D, (R 4%nat g4 _ L4 H4), D.
    rewrite <- (append_nil_r g5). by rewrite (R 12%nat g5 "" L5 H5).
Qed.

Lemma splitOn_group (sep : ascii) (g r : string) :
  allChars (fun c => negb (Ascii.eqb c sep)) g = true ->
  splitOn sep (g +:+ String sep r) = g :: splitOn sep r.
Proof.
  induction g as [|c g IH]; simpl.
  - by rewrite Ascii.eqb_refl.
  - intros [Hc Hg]%andb_prop. apply negb_true_iff in Hc. rewrite Hc.
    by rewrite (IH Hg).
Qed.

Lemma splitOn_last (sep : ascii) (g : string) :
  allChars (fun c => negb (Ascii.eqb c sep)) g = true ->
  splitOn sep g = [g].
Proof.
  induction g as [|c g IH]; simpl; [done|].
  intros [Hc Hg]%andb_prop. apply negb_true_iff in Hc. rewrite Hc.
  by rewrite (IH Hg).
Qed.

(** Joining the groups with the separator gives the string back. *)
Lemma concat_splitOn (sep : ascii) (s : string) :
  String.concat (String sep "") (splitOn sep s) = s.
Proof.
  induction s as [|c s IH]; simpl; [done|].
  destruct (Ascii.eqb_spec c sep) as [->|Hne].
  - destruct (splitOn sep s) as [|g gs] eqn:E; simpl in *.
    + by subst s.
    + by rewrite IH.
  - destruct (splitOn sep s) as [|g gs] eqn:E; simpl in *.
    + by subst s.
    + destruct gs; simpl in *; by rewrite <- IH.
Qed.

Lemma hexGroup_no_dash (n : nat) (g : string) :
  hexGroup n g = true ->
  allChars (fun c => negb (Ascii.eqb c "-")) g = true.
Proof.
  intros [_ H]%andb_prop. induction g as [|c g IH]; simpl in *; [done|].
  apply andb_prop in H as [Hc Hg].
  by rewrite (hex_not_dash c Hc), (IH Hg).
Qed.

Lemma canonicalUuidForm_fiveGroups (s : string) :
  canonicalUuidForm s = true <-> fiveGroups s.
Proof.
  unfold canonicalUuidForm, fiveGroups. split.
  - pose proof (concat_splitOn "-" s) as J.
    destruct (splitOn "-" s) as [|g1 [|g2 [|g3 [|g4 [|g5 [|g6 gs]]]]]];
      try done.
    intros H. repeat (apply andb_prop in H as [H ?]).
    exists g1, g2, g3, g4, g5. simpl in J.
    split; [symmetry; exact J|]. unfold hexGroup at 1.
    split; [by apply andb_true_intro | done].
  - intros (g1 & g2 & g3 & g4 & g5 & -> & G1 & G2 & G3 & G4 & G5).
    assert (D : forall r, "-" +:+ r = String "-" r) by done. rewrite !D.
    rewrite !splitOn_group, splitOn_last by eauto using hexGroup_no_dash.
    by rewrite G1, G2, G3, G4, G5.
Qed.

(** The regular expression of [isValidUUID] accepts exactly the
    canonical UUID form of the specification. *)
Lemma isValidUUID_canonical (s : string) :
  isValidUUID s = canonicalUuidForm s.
Proof.
  apply eq_true_iff_eq.
  by rewrite isValidUUID_fiveGroups, canonicalUuidForm_fiveGroups.
Qed.

Lemma windowsPath_driveLetter (s : string) :
  testPrefix false windowsPathRegex s = driveLetterPath s.
Proof.
  unfold testPrefix, windowsPathRegex, driveLetterPath.
  cbn [matchHere matchRepeat].
  destruct s as [|c s]; [done|]. rewrite letterClass_isLetter.
  destruct (isLetter c) eqn:L.
  - destruct s as [|c2 s]; [done|]. cbn [atomMatches sameChar].
    destruct (Ascii.eqb_spec ":" c2) as [<-|N2].
    + destruct s as [|c3 s]; [done|].
      destruct (Ascii.eqb_spec "\" c3) as [<-|N3]; [done|].
      destruct c3 as [[] [] [] [] [] [] [] []]; done.
    + destruct c2 as [[] [] [] [] [] [] [] []]; done.
  - destruct s as [|c2 [|c3 s]]; try done;
      destruct c2 as [[] [] [] [] [] [] [] []]; try done;
      destruct c3 as [[] [] [] [] [] [] [] []]; done.
Qed.

(** [isValidGitUrl] accepts exactly the source locators of the
    specification. *)
Lemma isValidGitUrl_sourceLocator (s : string) :
  isValidGitUrl s = sourceLocatorForm s.
Proof.
  unfold isValidGitUrl, sourceLocatorForm, Js.startsWith.
  by rewrite windowsPath_driveLetter.
Qed.

End ValidationFacts.

(** ** Facts about the indexing client *)

Module ClientFacts.

Import Spec ExternalAIService ValidationFacts.

Section Client.

Variable apiUrl : string.
Variable net : nat -> AxiosOutcome.

Abbreviation loopBody := (loopBody apiUrl net).
Abbreviation retryLoop := (retryLoop apiUrl net).
Abbreviation sendRepositoryToAI := (sendRepositoryToAI apiUrl net).

Lemma retryLoop_unfold (p u : string) (a : Z) (log : list ClientEvent) :
  retryLoop p u a log =
  if a <=? maxRetries
  then match loopBody p u a log with
       | (Return r, log') => (r, log')
       | (NextAttempt, log') => retryLoop p u (a + 1) log'
       end
  else (mkResult false (Some "Max retries exceeded"), log).
Proof.
  funelim (ExternalAIService.retryLoop apiUrl net p u a log).
  - by rewrite Hle.
  - by rewrite e.
Qed.

Lemma networkAttempts_app (l1 l2 : list ClientEvent) :
  networkAttempts (l1 ++ l2) = (networkAttempts l1 + networkAttempts l2)%nat.
Proof. unfold networkAttempts. by rewrite List.filter_app, length_app. Qed.

Lemma backoffWaits_app (l1 l2 : list ClientEvent) :
  backoffWaits (l1 ++ l2) = backoffWaits l1 ++ backoffWaits l2.
Proof. apply omap_app. Qed.

(** One turn of the loop posts once; it goes on to the next attempt
    only before the last one, after one sleep of
    [2^(attempt-1) * 1000] ms. *)
Lemma loopBody_effects (p u : string) (a : Z) (log : list ClientEvent) :
  match loopBody p u a log with
  | (Return _, log') =>
      log' = log ++ [Post (endpoint apiUrl) p u 30000]
  | (NextAttempt, log') =>
      log' = log ++ [Post (endpoint apiUrl) p u 30000;
                     Sleep (Js.pow2 (a - 1) * 1000)]
      /\ a <> maxRetries
  end.
Proof.
  unfold ExternalAIService.loopBody, onError.
  destruct (net (networkAttempts log)) as [st|e].
  - by destruct ((st =? 200) || (st =? 201)).
  - destruct (Js.truthyNum (statusCode e) && _ && _); [done|].
    destruct (Z.eqb_spec a maxRetries); [done|].
    by rewrite <- app_assoc.
Qed.

Lemma retryLoop_bounds (n : nat) (p u : string) (a : Z)
      (log : list ClientEvent) :
  1 <= a <= maxRetries -> n = Z.to_nat (maxRetries - a) ->
  let log' := snd (retryLoop p u a log) in
  (networkAttempts log' <= networkAttempts log + S n)%nat
  /\ (length (backoffWaits log') <= length (backoffWaits log) + n)%nat.
Proof.
  revert a log. induction n as [|n IH]; intros a log Ha Hn;
    rewrite retryLoop_unfold;
    (destruct (Z.leb_spec a maxRetries) as [_|]; [|lia]);
    pose proof (loopBody_effects p u a log) as E;
    destruct (loopBody p u a log) as [[r|] log1]; simpl.
  - subst log1. rewrite networkAttempts_app, backoffWaits_app, length_app.
    unfold networkAttempts. simpl. lia.
  - destruct E as [_ Hne]. lia.
  - subst log1. rewrite networkAttempts_app, backoffWaits_app, length_app.
    unfold networkAttempts. simpl. lia.
  - destruct E as [-> Hne].
    destruct (IH (a + 1) (log ++ [Post (endpoint apiUrl) p u 30000;
                                  Sleep (Js.pow2 (a - 1) * 1000)]))
      as [B1 B2]; [lia | lia |].
    simpl in B1, B2.
    rewrite networkAttempts_app, backoffWaits_app, length_app in *.
    unfold networkAttempts in *. simpl in *. lia.
Qed.

Lemma http5xx_inv (o : AxiosOutcome) :
  http5xx o = true ->
  exists e s, o = Rejected e /\ statusCode e = Some s /\ 500 <= s.
Proof.
  destruct o as [st|e]; unfold http5xx; simpl; [done|].
  destruct (statusCode e) as [s|] eqn:Es; [|done].
  intros [? ?]%andb_prop. exists e, s. split_and!; [done..|lia].
Qed.

(** A server error before the last attempt: sleep, then go on. *)
Lemma loopBody_retry (p u : string) (a : Z) (log : list ClientEvent)
      (e : AxiosError) (s : Z) :
  net (networkAttempts log) = Rejected e ->
  statusCode e = Some s -> 500 <= s -> a <> maxRetries ->
  loopBody p u a log =
  (NextAttempt, (log ++ [Post (endpoint apiUrl) p u 30000])
                ++ [Sleep (Js.pow2 (a - 1) * 1000)]).
Proof.
  intros En Es Hs Ha. unfold ExternalAIService.loopBody, onError.
  rewrite En, Es. simpl.
  destruct (Z.ltb_spec s 500); [lia|]. rewrite andb_false_r.
  by destruct (Z.eqb_spec a maxRetries).
Qed.

(** A client error: give up at once. *)
Lemma loopBody_client_error (p u : string) (a : Z)
      (log : list ClientEvent) (e : AxiosError) (s : Z) :
  net (networkAttempts log) = Rejected e ->
  statusCode e = Some s -> 400 <= s < 500 ->
  loopBody p u a log =
  (Return (mkResult false
             (Some ("Client error: "
                    +:+ Js.orStr (responseDataMessage e) (message e)))),
   log ++ [Post (endpoint apiUrl) p u 30000]).
Proof.
  intros En Es Hs. unfold ExternalAIService.loopBody, onError.
  rewrite En, Es. simpl.
  destruct (Z.eqb_spec s 0); [lia|].
  destruct (Z.leb_spec 400 s); [|lia].
  by destruct (Z.ltb_spec s 500); [|lia].
Qed.


(** A failure on the last attempt that is not a client error: give up
    with the reason of this last error. *)
Lemma loopBody_last (p u : string) (a : Z) (log : list ClientEvent)
      (e : AxiosError) (s : Z) :
  net (networkAttempts log) = Rejected e ->
  statusCode e = Some s -> 500 <= s -> a = maxRetries ->
  loopBody p u a log =
  (Return (mkResult false
             (Some (Js.orStr (Some (Js.orStr (responseDataMessage e)
                                            (message e)))
                             "Unknown error"))),
   log ++ [Post (endpoint apiUrl) p u 30000]).
Proof.
  intros En Es Hs ->. unfold ExternalAIService.loopBody, onError.
  rewrite En, Es. simpl.
  destruct (Z.ltb_spec s 500); [lia|]. by rewrite andb_false_r.
Qed.

(** When all three tries fail with an HTTP 5xx error the client gives
    up after 3 attempts and 2 waits, with the reason of the last
    error. *)
Lemma exhausted_returns_last_reason
      (projectId repoUrl repoId : string) (e0 e1 e2 : AxiosError) :
  isValidUUID projectId = true ->
  isValidGitUrl repoUrl = true ->
  net 0%nat = Rejected e0 -> net 1%nat = Rejected e1 ->
  net 2%nat = Rejected e2 ->
  http5xx (net 0%nat) = true -> http5xx (net 1%nat) = true ->
  http5xx (net 2%nat) = true ->
  let (result, log) := sendRepositoryToAI projectId repoUrl repoId in
  result = mkResult false
             (Some (Js.orStr (Some (Js.orStr (responseDataMessage e2)
                                            (message e2)))
                             "Unknown error"))
  /\ networkAttempts log = 3%nat
  /\ backoffWaits log = [1000; 2000].
Proof.
  intros Hp Hu E0 E1 E2 H0 H1 H2.
  unfold ExternalAIService.sendRepositoryToAI. rewrite Hp, Hu. simpl.
  destruct (http5xx_inv _ H0) as (e0' & s0 & E0' & C0 & L0).
  destruct (http5xx_inv _ H1) as (e1' & s1 & E1' & C1 & L1).
  destruct (http5xx_inv _ H2) as (e2' & s2 & E2' & C2 & L2).
  assert (e2' = e2) as -> by congruence.
  rewrite retryLoop_unfold, (loopBody_retry _ _ 1 [] e0' s0)
    by (done || by unfold maxRetries).
  rewrite retryLoop_unfold, (loopBody_retry _ _ 2 _ e1' s1)
    by (done || by unfold maxRetries).
  rewrite retryLoop_unfold, (loopBody_last _ _ _ _ e2 s2) by done.
  vm_compute networkAttempts. done.
Qed.

(** C10: whatever its arguments and whatever the network does,
    [sendRepositoryToAI] returns a result (it is a total function and
    has no exceptional outcome), after at most 3 network attempts
    and at most 2 backoff waits. *)
Theorem sendRepositoryToAI_returns_within_bounds
        (projectId repoUrl repoId : string) :
  exists result log,
    sendRepositoryToAI projectId repoUrl repoId = (result, log)
    /\ (networkAttempts log <= 3)%nat
    /\ (length (backoffWaits log) <= 2)%nat.
Proof.
  destruct (sendRepositoryToAI projectId repoUrl repoId)
    as [result log] eqn:E.
  exists result, log. split; [done|].
  unfold ExternalAIService.sendRepositoryToAI in E.
  destruct (negb (isValidUUID projectId)).
  { injection E as _ <-. vm_compute. lia. }
  destruct (negb (isValidGitUrl repoUrl)).
  { injection E as _ <-. vm_compute. lia. }
  pose proof (retryLoop_bounds 2 projectId repoUrl 1 []) as B.
  rewrite E in B. apply B; unfold maxRetries; lia.
Qed.


(** C6: when the first try fails with an HTTP 4xx response, a
    submission that reached the network returns the client-error
    failure after exactly 1 attempt, without retry or backoff wait. *)
Theorem client_error_short_circuit (projectId repoUrl repoId : string) :
  isValidUUID projectId = true ->
  isValidGitUrl repoUrl = true ->
  http4xx (net 0) = true ->
  let (result, log) := sendRepositoryToAI projectId repoUrl repoId in
  success result = false
  /\ (exists reason, error result = Some ("Client error: " +:+ reason))
  /\ log = [Post (endpoint apiUrl) projectId repoUrl 30000]
  /\ networkAttempts log = 1%nat
  /\ backoffWaits log = [].
Proof.
  intros Hp Hu H0.
  unfold ExternalAIService.sendRepositoryToAI. rewrite Hp, Hu. simpl.
  unfold http4xx in H0. destruct (net 0) as [st|e] eqn:E0; [done|].
  simpl in H0. destruct (statusCode e) as [s|] eqn:Es; [|done].
  apply andb_prop in H0 as [A B].
  rewrite retryLoop_unfold, (loopBody_client_error _ _ 1 [] e s)
    by (done || lia).
  vm_compute networkAttempts. simpl. split_and!; eauto.
Qed.

(** C7: a project identifier that is not in canonical UUID form, or
    a repository URL that does not begin as a source locator, makes
    the client return a failure at once, with no network attempt
    (and no wait). *)
Theorem invalid_input_fails_fast (projectId repoUrl repoId : string) :
  canonicalUuidForm projectId = false
  \/ sourceLocatorForm repoUrl = false ->
  let (result, log) := sendRepositoryToAI projectId repoUrl repoId in
  success result = false
  /\ (error result = Some "Invalid project ID format"
      \/ error result = Some "Invalid Git URL format")
  /\ log = []
  /\ networkAttempts log = 0%nat.
Proof.
  rewrite <- isValidUUID_canonical, <- isValidGitUrl_sourceLocator.
  unfold ExternalAIService.sendRepositoryToAI.
  intros [-> | Hu]; simpl; [by eauto 6|].
  rewrite Hu. destruct (isValidUUID projectId); simpl; by eauto 6.
Qed.

End Client.

End ClientFacts.

(** ** Facts about the orchestrator *)

Module OrchestratorFacts.

Import ProjectService ProjectController Observations.

(** Unfold the monad of the handlers down to state passing. *)
Ltac unfold_M :=
  unfold tryCatch, commitStatus, emit, record, sendInBackground, await,
    mbind, mret, M_bind, M_ret in *.

Lemma submissions_app (t1 t2 : list Event) :
  submissions (t1 ++ t2) = submissions t1 ++ submissions t2.
Proof. apply omap_app. Qed.

Section Handlers.

Variable refusal : Store -> string -> string -> string -> string
                   -> option string.

(** C1: when a repository is created, a SERVER gets status PENDING
    and exactly one submission begins, carrying the repository's own
    URL; any other type gets status UNTRACKED and no submission
    begins. *)
Theorem addRepo_status_and_submission
        (w : World) (projectId name url type : string) :
  refusal (store w) projectId name url type = None ->
  let out := addRepo refusal projectId name url type w in
  exists repo,
    fst out = inr (json (RepositoryBody repo))
    /\ ProjectService.url repo = url
    /\ ProjectService.type repo = type
    /\ getRepo (id repo) (store (snd out))
       = inr (Some repo, store (snd out))
    /\ (type = "SERVER" ->
        status repo = PENDING
        /\ submissions (trace (snd out))
           = submissions (trace w)
             ++ [(projectId, ProjectService.url repo, id repo)])
    /\ (type <> "SERVER" ->
        status repo = UNTRACKED
        /\ submissions (trace (snd out)) = submissions (trace w)).
Proof.
  intros Hr. unfold addRepo, ProjectService.addRepo. unfold_M.
  simpl. rewrite Hr. simpl.
  destruct (String.eqb_spec type "SERVER") as [->|Hne]; simpl;
    eexists; (split; [reflexivity|]); simpl;
    unfold getRepo; simpl; rewrite lookup_insert_eq; simpl;
    rewrite !submissions_app; simpl; rewrite ?app_nil_r;
    split_and!; try done.
Qed.

(** C2: when a dependency source -> target is added between known
    repositories, an UNTRACKED target is committed to PENDING once,
    the update is broadcast, and exactly one submission for the
    target begins; a target in any other status is left alone:
    nothing is committed, broadcast or submitted. *)
Theorem createDependency_triggers_untracked_target
        (w : World) (sourceRepoId targetRepoId : string) (s t : Row) :
  repos (store w) !! sourceRepoId = Some s ->
  repos (store w) !! targetRepoId = Some t ->
  let w' := snd (createDependency sourceRepoId targetRepoId w) in
  (rowStatus t = UNTRACKED ->
   statusOf (store w') targetRepoId = Some PENDING
   /\ trace w' =
      trace w
      ++ [StatusCommitted targetRepoId PENDING;
          Emit "repository:updated" (rowProjectId t)
               (toRepository targetRepoId (rowWithStatus t PENDING));
          SubmitBegin (nextTask w) (rowProjectId t) (rowUrl t)
                      targetRepoId])
  /\ (rowStatus t <> UNTRACKED ->
      repos (store w') = repos (store w)
      /\ trace w' = trace w
      /\ inflight w' = inflight w).
Proof.
  intros Hs Ht. unfold createDependency. unfold_M.
  unfold addDependency, getRepo, updateRepoStatus, statusOf.
  repeat (progress (simpl; rewrite ?Hs, ?Ht)).
  destruct (rowStatus t) eqn:Est; simpl; try (split; done).
  rewrite Ht. simpl. split; [|done]. intros _.
  rewrite lookup_insert_eq. simpl. by rewrite <- !app_assoc.
Qed.

(** C3: when a dependency source -> target is removed, a target that
    is left without incoming edges and is not a SERVER is committed
    to UNTRACKED, whatever its status was, and the update is
    broadcast; a target that keeps an incoming edge, or is a SERVER,
    keeps its status. *)
Theorem deleteDependency_reverts_orphan
        (w : World) (sourceRepoId targetRepoId : string) (t : Row) :
  (sourceRepoId, targetRepoId) ∈ deps (store w) ->
  repos (store w) !! targetRepoId = Some t ->
  let w' := snd (deleteDependency sourceRepoId targetRepoId w) in
  deps (store w') = deps (store w) ∖ {[ (sourceRepoId, targetRepoId) ]}
  /\ (incomingDegree (store w') targetRepoId = 0%nat ->
      rowType t <> "SERVER" ->
      statusOf (store w') targetRepoId = Some UNTRACKED
      /\ trace w' =
         trace w
         ++ [StatusCommitted targetRepoId UNTRACKED;
             Emit "repository:updated" (rowProjectId t)
                  (toRepository targetRepoId
                                (rowWithStatus t UNTRACKED))])
  /\ ((0 < incomingDegree (store w') targetRepoId)%nat
      \/ rowType t = "SERVER" ->
      repos (store w') = repos (store w)
      /\ trace w' = trace w).
Proof.
  intros Hd Ht. unfold deleteDependency. unfold_M.
  unfold removeDependency, countIncomingDependencies, getRepo,
    updateRepoStatus, statusOf.
  simpl. rewrite decide_True by done. simpl.
  set (s1 := mkStore (repos (store w))
                     (deps (store w) ∖ {[(sourceRepoId, targetRepoId)]})
                     (nextId (store w))).
  destruct (Nat.eqb_spec (incomingDegree s1 targetRepoId) 0) as [Hz|Hz];
    simpl.
  - rewrite Ht. simpl.
    destruct (String.eqb_spec (rowType t) "SERVER") as [Hty|Hty]; simpl.
    + split_and!; [done| |done]. intros. done.
    + rewrite Ht. simpl. rewrite lookup_insert_eq. simpl.
      split_and!; [done| |].
      * intros _ _. by rewrite <- !app_assoc.
      * unfold incomingDegree in *. simpl in *. intros [?|?]; [lia|done].
  - split_and!; [done| |done]. intros Hz'. unfold incomingDegree in *.
    simpl in *. done.
Qed.

Variable EXTERNAL_AI_API_URL : option string.

(** C9: a graph request that carries a project identifier answers
    with the empty graph whenever the fetch from the external
    service fails: on a network error, on a status that is not OK,
    and on a body that does not parse. *)
Theorem getGraph_failure_gives_empty_graph
        (projectId : option string) (fetch : string -> FetchOutcome) :
  Js.truthyStr projectId = true ->
  fetchFails (fetch (graphEndpoint EXTERNAL_AI_API_URL projectId))
  = true ->
  getGraph EXTERNAL_AI_API_URL projectId fetch
  = GraphJson 200 emptyGraph.
Proof.
  intros Hp Hf. unfold getGraph. rewrite Hp. simpl.
  destruct (fetch _) as [msg | status parsed]; [done|].
  simpl in Hf. destruct (ok status); simpl in *; [|done].
  by destruct parsed.
Qed.

(** Without a project identifier the request is refused, and a
    successful fetch is passed through. *)
Lemma getGraph_requires_projectId (fetch : string -> FetchOutcome) :
  getGraph EXTERNAL_AI_API_URL None fetch
  = GraphError 400 "projectId is required".
Proof. done. Qed.

Lemma getGraph_passes_data (projectId : option string)
      (fetch : string -> FetchOutcome) (status : Z) (data : Json) :
  Js.truthyStr projectId = true ->
  fetch (graphEndpoint EXTERNAL_AI_API_URL projectId)
  = FetchResponse status (Some data) ->
  ok status = true ->
  getGraph EXTERNAL_AI_API_URL projectId fetch = GraphJson 200 data.
Proof.
  intros Hp Hf Hok. unfold getGraph. by rewrite Hp, Hf, Hok.
Qed.

End Handlers.

End OrchestratorFacts.

(** ** The lifecycle over whole runs *)

Module LifecycleFacts.

Import ProjectService ProjectController Observations.
Import OrchestratorFacts.

Section Runs.

Variable refusal : Store -> string -> string -> string -> string
                   -> option string.
Variable EXTERNAL_AI_API_URL : option string.

Abbreviation step := (step refusal EXTERNAL_AI_API_URL).
Abbreviation run := (run refusal EXTERNAL_AI_API_URL).

(** *** Each step has one of the four effects *)






(** *** Traces stay in order *)








(** *** Servers stay tracked *)

Lemma serversTracked_insert (s s' : Store) (key : string) (row : Row) :
  serversTracked s ->
  (rowType row = "SERVER" -> rowStatus row <> UNTRACKED) ->
  repos s' = <[key := row]> (repos s) ->
  serversTracked s'.
Proof.
  intros Hs Hrow Heq k r. rewrite Heq.
  intros [[<- <-] | [_ Hk]]%lookup_insert_Some; [done | by eauto].
Qed.

Lemma serversTracked_same (s s' : Store) :
  serversTracked s -> repos s' = repos s -> serversTracked s'.
Proof. intros Hs Heq k r. rewrite Heq. apply Hs. Qed.

Ltac tracked_same := eapply serversTracked_same; [eassumption | done].

Lemma addRepo_tracked (w : World) (p n u t : string) :
  serversTracked (store w) ->
  serversTracked (store (snd (addRepo refusal p n u t w))).
Proof.
  intros Hw. unfold addRepo, ProjectService.addRepo. unfold_M. simpl.
  destruct (refusal (store w) p n u t) as [msg|]; simpl.
  - destruct (Js.startsWith msg "SERVER_REQUIRED"); simpl; tracked_same.
  - destruct (String.eqb_spec t "SERVER") as [->|Hne]; simpl;
      (eapply serversTracked_insert; [eassumption | | reflexivity]);
      simpl; done.
Qed.

Lemma createDependency_tracked (w : World) (s t : string) :
  serversTracked (store w) ->
  serversTracked (store (snd (createDependency s t w))).
Proof.
  intros Hw. unfold createDependency. unfold_M.
  unfold addDependency, getRepo, updateRepoStatus. simpl.
  destruct (repos (store w) !! s) as [rs|] eqn:Hs; simpl;
    [|tracked_same].
  destruct (repos (store w) !! t) as [rt|] eqn:Ht; simpl;
    [|tracked_same].
  repeat (progress (simpl; rewrite ?Hs, ?Ht)).
  destruct (rowStatus rt) eqn:Est; simpl; try tracked_same.
  rewrite Ht. simpl.
  eapply serversTracked_insert; [eassumption | | reflexivity]. done.
Qed.

Lemma deleteDependency_tracked (w : World) (s t : string) :
  serversTracked (store w) ->
  serversTracked (store (snd (deleteDependency s t w))).
Proof.
  intros Hw. unfold deleteDependency. unfold_M.
  unfold removeDependency, countIncomingDependencies, getRepo,
    updateRepoStatus. simpl.
  case_decide as Hd; simpl; [|tracked_same].
  match goal with
  | |- context [(?n =? 0)%nat] => destruct (n =? 0)%nat
  end; simpl; [|tracked_same].
  destruct (repos (store w) !! t) as [rt|] eqn:Ht; simpl;
    [|tracked_same].
  destruct (String.eqb_spec (rowType rt) "SERVER") as [Hty|Hty]; simpl;
    [tracked_same|].
  rewrite Ht. simpl.
  eapply serversTracked_insert; [eassumption | | reflexivity]. done.
Qed.

Lemma settle_tracked (w : World) (k : nat) (net : nat -> AxiosOutcome) :
  serversTracked (store w) ->
  serversTracked (store (snd (settle EXTERNAL_AI_API_URL k net w))).
Proof.
  intros Hw. unfold settle.
  destruct (inflight w !! k) as [t|] eqn:Hk; simpl; [|done].
  destruct (ExternalAIService.sendRepositoryToAI _ _ _ _ _)
    as [result io].
  unfold onFulfilled, onRejected. unfold_M. unfold updateRepoStatus.
  destruct (success result); simpl;
    (destruct (repos (store w) !! taskRepoId t) as [row|] eqn:Hr;
     repeat (progress (simpl; rewrite ?Hr));
     [ eapply serversTracked_insert; [eassumption | | reflexivity]; done
     | tracked_same ]).
Qed.

Lemma step_tracked (w : World) (q : Request) :
  serversTracked (store w) -> serversTracked (store (step w q)).
Proof.
  destruct q; simpl.
  - apply addRepo_tracked.
  - apply createDependency_tracked.
  - apply deleteDependency_tracked.
  - apply settle_tracked.
Qed.

Lemma run_tracked (qs : list Request) (w : World) :
  serversTracked (store w) -> serversTracked (store (run qs w)).
Proof.
  revert w. induction qs as [|q qs IH]; intros w Hw; [done|].
  simpl. apply IH. by apply step_tracked.
Qed.

(** C4: in every state reached from the empty store by creations,
    dependency additions and removals, and indexing outcomes, a
    repository of type SERVER does not have status UNTRACKED. *)
Theorem server_never_untracked
        (qs : list Request) (repoId : string) (r : Row) :
  repos (store (run qs initial)) !! repoId = Some r ->
  rowType r = "SERVER" ->
  rowStatus r <> UNTRACKED.
Proof.
  apply (run_tracked qs initial). intros k r'. simpl.
  by rewrite lookup_empty.
Qed.

End Runs.

End LifecycleFacts.

(** ** The theorems at work on the example data *)

Module Instances.

Import ExternalAIService ProjectService ProjectController Spec Observations.
Import Examples.


Lemma client_error_404 :
  let (result, log) :=
    sendRepositoryToAI "http://localhost:8000" (fun _ => error404) P
                       "https://git.example/b.git" "repo-1" in
  success result = false
  /\ (exists reason, error result = Some ("Client error: " +:+ reason))
  /\ log = [Post (endpoint "http://localhost:8000") P
                 "https://git.example/b.git" 30000]
  /\ networkAttempts log = 1%nat
  /\ backoffWaits log = [].
Proof.
  apply (ClientFacts.client_error_short_circuit "http://localhost:8000"
           (fun _ => error404) P "https://git.example/b.git" "repo-1");
    reflexivity.
Defined.

Lemma invalid_project_id_fails_fast :
  let (result, log) :=
    sendRepositoryToAI "http://localhost:8000" flaky "not-a-uuid"
                       "https://git.example/b.git" "repo-1" in
  success result = false
  /\ (error result = Some "Invalid project ID format"
      \/ error result = Some "Invalid Git URL format")
  /\ log = []
  /\ networkAttempts log = 0%nat.
Proof.
  apply (ClientFacts.invalid_input_fails_fast "http://localhost:8000" flaky
           "not-a-uuid" "https://git.example/b.git" "repo-1").
  left. reflexivity.
Defined.

Lemma addRepo_server_on_empty_store :
  let out := addRepo noRefusal P "A" "https://git.example/a.git" "SERVER"
                     initial in
  exists repo,
    fst out = inr (json (RepositoryBody repo))
    /\ ProjectService.url repo = "https://git.example/a.git"
    /\ ProjectService.type repo = "SERVER"
    /\ getRepo (id repo) (store (snd out))
       = inr (Some repo, store (snd out))
    /\ ("SERVER" = "SERVER" ->
        status repo = PENDING
        /\ submissions (trace (snd out))
           = submissions (trace initial)
             ++ [(P, ProjectService.url repo, id repo)])
    /\ ("SERVER" <> "SERVER" ->
        status repo = UNTRACKED
        /\ submissions (trace (snd out)) = submissions (trace initial)).
Proof.
  apply (OrchestratorFacts.addRepo_status_and_submission noRefusal initial
           P "A" "https://git.example/a.git" "SERVER").
  reflexivity.
Defined.

Lemma createDependency_on_untracked_B :
  let w' := snd (createDependency "repo-0" "repo-1" twoRepos) in
  (rowStatus (rowB UNTRACKED) = UNTRACKED ->
   statusOf (store w') "repo-1" = Some PENDING
   /\ trace w' =
      trace twoRepos
      ++ [StatusCommitted "repo-1" PENDING;
          Emit "repository:updated" P
               (toRepository "repo-1" (rowB PENDING));
          SubmitBegin (nextTask twoRepos) P "https://git.example/b.git"
                      "repo-1"])
  /\ (rowStatus (rowB UNTRACKED) <> UNTRACKED ->
      repos (store w') = repos (store twoRepos)
      /\ trace w' = trace twoRepos
      /\ inflight w' = inflight twoRepos).
Proof.
  apply (OrchestratorFacts.createDependency_triggers_untracked_target
           twoRepos "repo-0" "repo-1" rowA (rowB UNTRACKED));
    reflexivity.
Defined.

Lemma deleteDependency_orphans_B :
  let w' := snd (deleteDependency "repo-0" "repo-1" connected) in
  deps (store w') = deps (store connected) ∖ {[ ("repo-0", "repo-1") ]}
  /\ (incomingDegree (store w') "repo-1" = 0%nat ->
      rowType (rowB INDEXED) <> "SERVER" ->
      statusOf (store w') "repo-1" = Some UNTRACKED
      /\ trace w' =
         trace connected
         ++ [StatusCommitted "repo-1" UNTRACKED;
             Emit "repository:updated" P
                  (toRepository "repo-1" (rowB UNTRACKED))])
  /\ ((0 < incomingDegree (store w') "repo-1")%nat
      \/ rowType (rowB INDEXED) = "SERVER" ->
      repos (store w') = repos (store connected)
      /\ trace w' = trace connected).
Proof.
  apply (OrchestratorFacts.deleteDependency_reverts_orphan
           connected "repo-0" "repo-1" (rowB INDEXED)).
  - vm_compute. reflexivity.
  - reflexivity.
Defined.

Lemma server_A_tracked_after_scenario :
  rowStatus rowA <> UNTRACKED.
Proof.
  apply (LifecycleFacts.server_never_untracked noRefusal None scenario
           "repo-0" rowA); reflexivity.
Defined.

Lemma getGraph_on_502 :
  getGraph None (Some P) (fun _ => FetchResponse 502 None)
  = GraphJson 200 emptyGraph.
Proof.
  apply (OrchestratorFacts.getGraph_failure_gives_empty_graph None (Some P)
           (fun _ => FetchResponse 502 None)); reflexivity.
Defined.

(** The validators on a few inputs. *)
Example uuid_lower : isValidUUID P = true.
Proof. reflexivity. Qed.

Example uuid_upper :
  isValidUUID "123E4567-E89B-12D3-A456-426614174ABC" = true.
Proof. reflexivity. Qed.

Example uuid_non_hex :
  isValidUUID "123e4567-e89b-12d3-a456-42661417400g" = false.
Proof. reflexivity. Qed.

Example uuid_short : isValidUUID "123e4567-e89b-12d3-a456" = false.
Proof. reflexivity. Qed.

Example url_ssh : isValidGitUrl "git@github.com:o/r.git" = true.
Proof. reflexivity. Qed.

Example url_windows : isValidGitUrl "C:\repos\r" = true.
Proof. reflexivity. Qed.

Example url_ftp : isValidGitUrl "ftp://host/r.git" = false.
Proof. reflexivity. Qed.

(** A server that always answers 503: three attempts, two waits, and
    the reason of the last error. *)
Example always_503 :
  sendRepositoryToAI "http://localhost:8000" (fun _ => error503) P
                     "https://git.example/b.git" "repo-1"
  = (mkResult false (Some "Request failed with status code 503"),
     [ Post "http://localhost:8000/add-repository" P
            "https://git.example/b.git" 30000;
       Sleep 1000;
       Post "http://localhost:8000/add-repository" P
            "https://git.example/b.git" 30000;
       Sleep 2000;
       Post "http://localhost:8000/add-repository" P
            "https://git.example/b.git" 30000 ]).
Proof. reflexivity. Qed.

(** An unexpected success status is a failure without retry. *)
Example status_204 :
  sendRepositoryToAI "http://localhost:8000" (fun _ => Resolved 204) P
                     "https://git.example/b.git" "repo-1"
  = (mkResult false (Some "Unexpected status: 204"),
     [ Post "http://localhost:8000/add-repository" P
            "https://git.example/b.git" 30000 ]).
Proof. reflexivity. Qed.

(** The scenario, step by step: the statuses of A and B. *)
Example scenario_statuses :
  map (fun n =>
         let w := run noRefusal None (take n scenario) initial in
         (statusOf (store w) "repo-0", statusOf (store w) "repo-1"))
      [1; 2; 3; 4; 5]%nat
  = [ (Some PENDING, None);
      (Some PENDING, Some UNTRACKED);
      (Some PENDING, Some PENDING);
      (Some PENDING, Some INDEXED);
      (Some PENDING, Some UNTRACKED) ].
Proof. reflexivity. Qed.

Example scenario_submissions :
  submissions (trace (run noRefusal None scenario initial))
  = [ (P, "https://git.example/a.git", "repo-0");
      (P, "https://git.example/b.git", "repo-1") ].
Proof. reflexivity. Qed.

(** Adding the same dependency again does not submit again. *)
Example duplicate_dependency_is_quiet :
  trace (snd (createDependency "repo-0" "repo-1" connected))
  = trace connected.
Proof. reflexivity. Qed.

End Instances.

(** ** More about the indexing client *)

Module AttemptFacts.

Import Spec ExternalAIService Attempts ClientFacts.

Section Client.

Variable apiUrl : string.
Variable net : nat -> AxiosOutcome.

Abbreviation loopBody := (loopBody apiUrl net).
Abbreviation retryLoop := (retryLoop apiUrl net).
Abbreviation sendRepositoryToAI := (sendRepositoryToAI apiUrl net).

Lemma retryable_not_client (e : AxiosError) :
  retryable (Rejected e) = true ->
  Js.truthyNum (statusCode e) && (400 <=? default 0 (statusCode e))
  && (default 0 (statusCode e) <? 500) = false.
Proof.
  unfold retryable. destruct (statusCode e) as [s|]; simpl; [|done].
  intros [H|H]%orb_prop.
  - destruct (Z.leb_spec 400 s); [lia|]. by rewrite andb_false_r.
  - destruct (Z.ltb_spec s 500); [lia|]. by rewrite andb_false_r.
Qed.

Lemma clientError_inv (o : AxiosOutcome) :
  clientError o = true ->
  exists e s, o = Rejected e /\ statusCode e = Some s /\ 400 <= s < 500.
Proof.
  destruct o as [st|e]; simpl; [done|].
  destruct (statusCode e) as [s|] eqn:Es; [|done].
  intros [? ?]%andb_prop. exists e, s. split_and!; [done..|lia|lia].
Qed.

(** A retryable failure before the last attempt: wait, then go on. *)
Lemma retryLoop_retryable (p u : string) (a : Z) (log : list ClientEvent) :
  1 <= a < maxRetries ->
  retryable (net (networkAttempts log)) = true ->
  retryLoop p u a log
  = retryLoop p u (a + 1)
      ((log ++ [post apiUrl p u]) ++ [Sleep (Js.pow2 (a - 1) * 1000)]).
Proof.
  intros Ha Hr. rewrite retryLoop_unfold.
  destruct (Z.leb_spec a maxRetries); [|lia].
  unfold ExternalAIService.loopBody, onError.
  destruct (net (networkAttempts log)) as [st|e]; [done|].
  rewrite (retryable_not_client e Hr).
  by destruct (Z.eqb_spec a maxRetries); [lia|].
Qed.

(** A response ends the loop, whatever the attempt. *)
Lemma retryLoop_resolved (p u : string) (a st : Z) (log : list ClientEvent) :
  1 <= a <= maxRetries ->
  net (networkAttempts log) = Resolved st ->
  retryLoop p u a log
  = (if (st =? 200) || (st =? 201) then mkResult true None
     else mkResult false (Some ("Unexpected status: " +:+ pretty st)),
     log ++ [post apiUrl p u]).
Proof.
  intros Ha Hn. rewrite retryLoop_unfold.
  destruct (Z.leb_spec a maxRetries); [|lia].
  unfold ExternalAIService.loopBody. rewrite Hn.
  by destruct ((st =? 200) || (st =? 201)).
Qed.

Lemma retryLoop_client_error (p u : string) (a : Z) (log : list ClientEvent)
      (e : AxiosError) :
  1 <= a <= maxRetries ->
  net (networkAttempts log) = Rejected e ->
  clientError (Rejected e) = true ->
  retryLoop p u a log
  = (mkResult false
       (Some ("Client error: "
              +:+ Js.orStr (responseDataMessage e) (message e))),
     log ++ [post apiUrl p u]).
Proof.
  intros Ha Hn Hc. rewrite retryLoop_unfold.
  destruct (Z.leb_spec a maxRetries); [|lia].
  destruct (clientError_inv _ Hc) as (e' & s & [= <-] & Es & Hs).
  by rewrite (loopBody_client_error apiUrl net p u a log e s).
Qed.

Lemma retryLoop_last (p u : string) (log : list ClientEvent)
      (e : AxiosError) :
  net (networkAttempts log) = Rejected e ->
  retryable (Rejected e) = true ->
  retryLoop p u maxRetries log
  = (mkResult false
       (Some (Js.orStr (Some (Js.orStr (responseDataMessage e) (message e)))
                       "Unknown error")),
     log ++ [post apiUrl p u]).
Proof.
  intros Hn Hr. rewrite retryLoop_unfold. simpl.
  unfold ExternalAIService.loopBody, onError. rewrite Hn.
  by rewrite (retryable_not_client e Hr).
Qed.

(** The loop from attempt 1, once the first [k] attempts were
    retryable failures. *)
Lemma retryLoop_after (p u : string) (k : nat) :
  (k < 3)%nat ->
  (forall j, (j < k)%nat -> retryable (net j) = true) ->
  retryLoop p u 1 []
  = retryLoop p u (Z.of_nat k + 1)
      (match k with
       | O => []
       | S k' => attemptLog apiUrl p u k' ++ [Sleep (2 ^ Z.of_nat k' * 1000)]
       end).
Proof.
  intros Hk Hr. destruct k as [|[|[|]]]; [done| | |lia].
  - rewrite retryLoop_retryable; [done | by unfold maxRetries |].
    apply (Hr 0%nat). lia.
  - rewrite retryLoop_retryable; [| by unfold maxRetries |];
      [|apply (Hr 0%nat); lia].
    rewrite retryLoop_retryable; [done | by unfold maxRetries |].
    apply (Hr 1%nat). lia.
Qed.

Lemma attempts_after (p u : string) (k : nat) :
  networkAttempts
    (match k with
     | O => []
     | S k' => attemptLog apiUrl p u k' ++ [Sleep (2 ^ Z.of_nat k' * 1000)]
     end) = k.
Proof.
  destruct k as [|k]; [done|].
  rewrite networkAttempts_app. unfold networkAttempts at 2. simpl.
  rewrite Nat.add_0_r.
  induction k as [|k IH]; [done|]. simpl.
  rewrite networkAttempts_app, IH. unfold networkAttempts. simpl. lia.
Qed.

Lemma attemptLog_after (p u : string) (k : nat) :
  (match k with
   | O => []
   | S k' => attemptLog apiUrl p u k' ++ [Sleep (2 ^ Z.of_nat k' * 1000)]
   end) ++ [post apiUrl p u]
  = attemptLog apiUrl p u k.
Proof. destruct k; [done|]. simpl. by rewrite <- app_assoc. Qed.

Lemma networkAttempts_attemptLog (p u : string) (k : nat) :
  networkAttempts (attemptLog apiUrl p u k) = S k.
Proof.
  rewrite <- attemptLog_after, networkAttempts_app, attempts_after.
  unfold networkAttempts. simpl. lia.
Qed.

Lemma backoffWaits_attemptLog (p u : string) (k : nat) :
  backoffWaits (attemptLog apiUrl p u k)
  = (fun i => 2 ^ Z.of_nat i * 1000) <$> seq 0 k.
Proof.
  induction k as [|k IH]; [done|].
  simpl attemptLog. rewrite backoffWaits_app, IH.
  rewrite seq_S, fmap_app. done.
Qed.

Lemma rejected_dichotomy (e : AxiosError) :
  clientError (Rejected e) = true \/ retryable (Rejected e) = true.
Proof.
  simpl. destruct (statusCode e) as [s|]; [|by right].
  rewrite andb_true_iff, orb_true_iff, Z.leb_le, !Z.ltb_lt, Z.leb_le. lia.
Qed.

(** X1: a response received on attempt [k+1], after [k] retryable
    failures, ends the call there: success for status 200 or 201, the
    "Unexpected status" failure for any other status, after [k+1] posts
    and [k] waits of 1 s, 2 s. *)
Theorem response_ends_the_call
        (projectId repoUrl repoId : string) (k : nat) (st : Z) :
  isValidUUID projectId = true ->
  isValidGitUrl repoUrl = true ->
  (k < 3)%nat ->
  (forall j, (j < k)%nat -> retryable (net j) = true) ->
  net k = Resolved st ->
  sendRepositoryToAI projectId repoUrl repoId
  = (if (st =? 200) || (st =? 201) then mkResult true None
     else mkResult false (Some ("Unexpected status: " +:+ pretty st)),
     attemptLog apiUrl projectId repoUrl k).
Proof.
  intros Hp Hu Hk Hr Hn.
  unfold ExternalAIService.sendRepositoryToAI. rewrite Hp, Hu. simpl.
  rewrite (retryLoop_after _ _ k Hk Hr).
  rewrite (retryLoop_resolved _ _ _ st), attemptLog_after;
    [done | unfold maxRetries; lia | by rewrite attempts_after].
Qed.

(** X2: a client error (status 400..499) on attempt [k+1], after [k]
    retryable failures, ends the call there with the "Client error"
    failure: later attempts are not made. *)
Theorem client_error_ends_the_call
        (projectId repoUrl repoId : string) (k : nat) (e : AxiosError) :
  isValidUUID projectId = true ->
  isValidGitUrl repoUrl = true ->
  (k < 3)%nat ->
  (forall j, (j < k)%nat -> retryable (net j) = true) ->
  net k = Rejected e ->
  clientError (Rejected e) = true ->
  sendRepositoryToAI projectId repoUrl repoId
  = (mkResult false
       (Some ("Client error: "
              +:+ Js.orStr (responseDataMessage e) (message e))),
     attemptLog apiUrl projectId repoUrl k).
Proof.
  intros Hp Hu Hk Hr Hn Hc.
  unfold ExternalAIService.sendRepositoryToAI. rewrite Hp, Hu. simpl.
  rewrite (retryLoop_after _ _ k Hk Hr).
  rewrite (retryLoop_client_error _ _ _ _ e), attemptLog_after;
    [done | unfold maxRetries; lia | by rewrite attempts_after | done].
Qed.

(** X3: when all three attempts fail in a retryable way (server
    errors, network errors without a response, anything that is not a
    client error), the call fails with the reason of the third error:
    the message of its response, else its own message, else
    "Unknown error". *)
Theorem exhaustion_reports_last_error
        (projectId repoUrl repoId : string) (e : AxiosError) :
  isValidUUID projectId = true ->
  isValidGitUrl repoUrl = true ->
  (forall j, (j < 3)%nat -> retryable (net j) = true) ->
  net 2%nat = Rejected e ->
  sendRepositoryToAI projectId repoUrl repoId
  = (mkResult false
       (Some (Js.orStr (Some (Js.orStr (responseDataMessage e) (message e)))
                       "Unknown error")),
     attemptLog apiUrl projectId repoUrl 2).
Proof.
  intros Hp Hu Hr Hn.
  unfold ExternalAIService.sendRepositoryToAI. rewrite Hp, Hu. simpl.
  rewrite (retryLoop_after _ _ 2); [|lia|intros j ?; apply Hr; lia].
  change (Z.of_nat 2 + 1) with maxRetries.
  rewrite (retryLoop_last _ _ _ e); [done | done |].
  rewrite <- Hn. apply Hr. lia.
Qed.

(** Every call ends in one of these ways. *)
Lemma send_cases (projectId repoUrl repoId : string) :
  let out := sendRepositoryToAI projectId repoUrl repoId in
  out = (mkResult false (Some "Invalid project ID format"), [])
  \/ out = (mkResult false (Some "Invalid Git URL format"), [])
  \/ exists k,
       (k < 3)%nat
       /\ snd out = attemptLog apiUrl projectId repoUrl k
       /\ ((exists st, net k = Resolved st
                       /\ ((st = 200 \/ st = 201)
                           /\ fst out = mkResult true None
                           \/ fst out
                              = mkResult false
                                  (Some ("Unexpected status: "
                                         +:+ pretty st))))
           \/ (exists e, net k = Rejected e
                         /\ fst out
                            = mkResult false
                                (Some ("Client error: "
                                       +:+ Js.orStr (responseDataMessage e)
                                                    (message e))))
           \/ (exists e, net k = Rejected e
                         /\ fst out
                            = mkResult false
                                (Some (Js.orStr
                                         (Some (Js.orStr
                                                  (responseDataMessage e)
                                                  (message e)))
                                         "Unknown error")))).
Proof.
  intros out. subst out.
  destruct (isValidUUID projectId) eqn:Hp;
    [|left; unfold ExternalAIService.sendRepositoryToAI; by rewrite Hp].
  destruct (isValidGitUrl repoUrl) eqn:Hu;
    [|right; left; unfold ExternalAIService.sendRepositoryToAI;
      by rewrite Hp, Hu].
  right. right.
  assert (Decided : forall k,
             (k < 3)%nat ->
             (forall j, (j < k)%nat -> retryable (net j) = true) ->
             (k = 2%nat \/ retryable (net k) = false) ->
             exists k', (k' < 3)%nat
               /\ snd (sendRepositoryToAI projectId repoUrl repoId)
                  = attemptLog apiUrl projectId repoUrl k'
               /\ ((exists st, net k' = Resolved st
                     /\ ((st = 200 \/ st = 201)
                         /\ fst (sendRepositoryToAI projectId repoUrl repoId)
                            = mkResult true None
                         \/ fst (sendRepositoryToAI projectId repoUrl repoId)
                            = mkResult false
                                (Some ("Unexpected status: " +:+ pretty st))))
                   \/ (exists e, net k' = Rejected e
                        /\ fst (sendRepositoryToAI projectId repoUrl repoId)
                           = mkResult false
                               (Some ("Client error: "
                                      +:+ Js.orStr (responseDataMessage e)
                                                   (message e))))
                   \/ (exists e, net k' = Rejected e
                        /\ fst (sendRepositoryToAI projectId repoUrl repoId)
                           = mkResult false
                               (Some (Js.orStr
                                        (Some (Js.orStr
                                                 (responseDataMessage e)
                                                 (message e)))
                                        "Unknown error"))))).
  { intros k Hk Hr Hlast. exists k. split; [done|].
    unfold ExternalAIService.sendRepositoryToAI. rewrite Hp, Hu. simpl.
    rewrite (retryLoop_after _ _ k Hk Hr).
    destruct (net k) as [st|e] eqn:Ek.
    - rewrite (retryLoop_resolved _ _ _ st), attemptLog_after;
        [| unfold maxRetries; lia | by rewrite attempts_after].
      split; [done|]. left. exists st. split; [done|]. simpl.
      destruct (Z.eqb_spec st 200) as [->|?]; [by left; split; [left|]|].
      destruct (Z.eqb_spec st 201) as [->|?]; [by left; split; [right|]|].
      by right.
    - destruct (rejected_dichotomy e) as [Hc|Hre].
      + rewrite (retryLoop_client_error _ _ _ _ e), attemptLog_after;
          [| unfold maxRetries; lia | by rewrite attempts_after | done].
        split; [done|]. right. left. by exists e.
      + destruct Hlast as [-> | Hno]; [|congruence].
        change (Z.of_nat 2 + 1) with maxRetries.
        rewrite (retryLoop_last _ _ _ e); [| done | done].
        split; [done|]. right. right. by exists e. }
  destruct (retryable (net 0%nat)) eqn:R0;
    [|apply (Decided 0%nat); [lia | intros; lia | by right]].
  destruct (retryable (net 1%nat)) eqn:R1.
  - apply (Decided 2%nat); [lia | | by left].
    intros j Hj. assert (j = 0 \/ j = 1)%nat as [->| ->] by lia; done.
  - apply (Decided 1%nat); [lia | | by right].
    intros j Hj. assert (j = 0)%nat as -> by lia. done.
Qed.

(** X4: whatever the inputs and the network, the client either does
    nothing, or posts the same request one, two or three times, waiting
    1 s between the first two posts and 2 s between the last two. It
    never waits after its last post, and never waits 4 s. *)
Theorem effects_are_posts_and_waits (projectId repoUrl repoId : string) :
  let log := snd (sendRepositoryToAI projectId repoUrl repoId) in
  let post := Post (endpoint apiUrl) projectId repoUrl 30000 in
  log = []
  \/ log = [post]
  \/ log = [post; Sleep 1000; post]
  \/ log = [post; Sleep 1000; post; Sleep 2000; post].
Proof.
  intros log post0. subst log.
  destruct (send_cases projectId repoUrl repoId)
    as [-> | [-> | (k & Hk & -> & _)]]; [by left | by left |].
  destruct k as [|[|[|]]]; [| | |lia]; auto.
Qed.

Lemma orStr_nonempty (s d : string) :
  d <> "" -> Js.orStr (Some s) d <> "".
Proof.
  intros Hd. unfold Js.orStr. by destruct (String.eqb_spec s "").
Qed.

(** X5: a result is a success without a reason or a failure with a
    reason that is not empty: the caller always has something to
    log. *)
Theorem failure_carries_a_reason (projectId repoUrl repoId : string) :
  let result := fst (sendRepositoryToAI projectId repoUrl repoId) in
  (success result = true /\ error result = None)
  \/ (success result = false
      /\ exists reason, error result = Some reason /\ reason <> "").
Proof.
  intros result. subst result.
  destruct (send_cases projectId repoUrl repoId)
    as [-> | [-> | (k & Hk & _ & Hcase)]];
    [right; by eauto | right; by eauto |].
  destruct Hcase as [(st & _ & [[_ ->] | ->]) | [(e & _ & ->) | (e & _ & ->)]];
    simpl; [by left | right; split; [done|] ..].
  - eexists. by split.
  - eexists. by split.
  - eexists. split; [done|]. by apply orStr_nonempty.
Qed.

End Client.

End AttemptFacts.

(** ** More about the validation rules *)

Module ValidatorFacts.

Import Regex Spec ExternalAIService Attempts ValidationFacts.

#[local] Arguments String.append !_ _ / : simpl nomatch.

Lemma length_app_string (a b : string) :
  String.length (a +:+ b) = (String.length a + String.length b)%nat.
Proof. induction a as [|c a IH]; simpl; [done|]. by rewrite IH. Qed.

(** X6: a project identifier that passes [isValidUUID] has exactly 36
    characters. *)
Theorem valid_uuid_has_36_characters (s : string) :
  isValidUUID s = true -> String.length s = 36%nat.
Proof.
  intros (g1 & g2 & g3 & g4 & g5 & -> & G1 & G2 & G3 & G4 & G5)
    %isValidUUID_fiveGroups.
  apply hexGroup_iff in G1 as [L1 _], G2 as [L2 _], G3 as [L3 _],
    G4 as [L4 _], G5 as [L5 _].
  rewrite !length_app_string, L1, L2, L3, L4, L5. done.
Qed.

Lemma canonicalize_idemp (c : ascii) :
  canonicalize (canonicalize c) = canonicalize c.
Proof. destruct c as [[] [] [] [] [] [] [] []]; reflexivity. Qed.

Lemma atomMatches_canonicalize (a : atom) (c : ascii) :
  atomMatches true a (canonicalize c) = atomMatches true a c.
Proof.
  destruct a as [l|rs]; simpl.
  - unfold sameChar. by rewrite canonicalize_idemp.
  - induction rs as [|r rs IH]; simpl; [done|]. rewrite IH. f_equal.
    induction (rangeMembers r) as [|m ms IHm]; simpl; [done|].
    rewrite IHm. unfold sameChar. by rewrite canonicalize_idemp.
Qed.

Lemma matchRepeat_canonicalize (a : atom) (n : nat) (s : string) :
  matchRepeat true a n (mapChars canonicalize s)
  = mapChars canonicalize <$> matchRepeat true a n s.
Proof.
  revert s. induction n as [|n IH]; intros s; [done|].
  destruct s as [|c s]; simpl; [done|].
  rewrite atomMatches_canonicalize.
  by destruct (atomMatches true a c).
Qed.

Lemma matchHere_canonicalize (p : pattern) (s : string) :
  matchHere true p (mapChars canonicalize s)
  = mapChars canonicalize <$> matchHere true p s.
Proof.
  revert s. induction p as [|[a n] p IH]; intros s; [done|].
  simpl. rewrite matchRepeat_canonicalize.
  destruct (matchRepeat true a n s); simpl; [apply IH | done].
Qed.

(** X7: [isValidUUID] ignores the case of letters: writing the
    letters a..z of an identifier in upper case does not change
    whether it is accepted. *)
Theorem isValidUUID_ignores_case (s : string) :
  isValidUUID (mapChars canonicalize s) = isValidUUID s.
Proof.
  unfold isValidUUID, testWhole. rewrite matchHere_canonicalize.
  destruct (matchHere true uuidRegex s) as [[|c r]|]; done.
Qed.

Lemma prefix_app (p s x : string) :
  String.prefix p s = true -> String.prefix p (s +:+ x) = true.
Proof.
  revert p. induction s as [|d s IH]; intros p; simpl.
  - destruct p; [|done]. intros _. by destruct x.
  - destruct p as [|c p]; [done|].
    destruct (ascii_dec c d); [apply IH | done].
Qed.

Lemma matchRepeat_app (ic : bool) (a : atom) (n : nat) (s r x : string) :
  matchRepeat ic a n s = Some r ->
  matchRepeat ic a n (s +:+ x) = Some (r +:+ x).
Proof.
  revert s. induction n as [|n IH]; intros s; simpl; [by intros [= ->]|].
  destruct s as [|c s]; simpl; [done|].
  destruct (atomMatches ic a c); [apply IH | done].
Qed.

Lemma matchHere_app (ic : bool) (p : pattern) (s r x : string) :
  matchHere ic p s = Some r -> matchHere ic p (s +:+ x) = Some (r +:+ x).
Proof.
  revert s. induction p as [|[a n] p IH]; intros s; simpl;
    [by intros [= ->]|].
  destruct (matchRepeat ic a n s) as [s'|] eqn:E; [|done].
  rewrite (matchRepeat_app _ _ _ _ _ x E). apply IH.
Qed.

(** X8: [isValidGitUrl] looks at the beginning of the string only: an
    accepted locator stays accepted whatever is appended to it. *)
Theorem isValidGitUrl_looks_at_prefix (url rest : string) :
  isValidGitUrl url = true -> isValidGitUrl (url +:+ rest) = true.
Proof.
  unfold isValidGitUrl, Js.startsWith, testPrefix.
  rewrite !orb_true_iff.
  intros [[[[H|H]|H]|H]|H].
  - rewrite (prefix_app _ _ rest H). auto.
  - rewrite (prefix_app _ _ rest H). auto.
  - rewrite (prefix_app _ _ rest H). auto.
  - rewrite (prefix_app _ _ rest H). auto.
  - destruct (matchHere false windowsPathRegex url) as [r|] eqn:E; [|done].
    rewrite (matchHere_app _ _ _ _ rest E). auto.
Qed.

End ValidatorFacts.

(** ** More about the orchestrator *)

Module StepFacts.

Import ProjectService ProjectController Observations Lifecycle.
Import OrchestratorFacts.

Section Handlers.

Variable refusal : Store -> string -> string -> string -> string
                   -> option string.
Variable EXTERNAL_AI_API_URL : option string.

Abbreviation settle := (settle EXTERNAL_AI_API_URL).
Abbreviation step := (step refusal EXTERNAL_AI_API_URL).
Abbreviation run := (run refusal EXTERNAL_AI_API_URL).

Lemma settle_status_known
      (w : World) (k : nat) (net : nat -> AxiosOutcome)
      (t : Task) (row : Row) :
  inflight w !! k = Some t ->
  repos (store w) !! taskRepoId t = Some row ->
  statusOf (store (snd (settle k net w))) (taskRepoId t)
  = Some (outcomeStatus
            (fst (ExternalAIService.sendRepositoryToAI
                    (apiUrl EXTERNAL_AI_API_URL) net
                    (taskProjectId t) (taskUrl t) (taskRepoId t)))).
Proof.
  intros Hk Hr. unfold ProjectController.settle. rewrite Hk.
  destruct (ExternalAIService.sendRepositoryToAI _ _ _ _ _)
    as [result io].
  unfold onFulfilled, onRejected, outcomeStatus, statusOf. unfold_M.
  unfold updateRepoStatus. simpl.
  destruct (success result);
    repeat (progress (simpl; rewrite ?Hr));
    by rewrite lookup_insert_eq.
Qed.

(** X9: when the promise of a submission settles and its repository
    is in the store, the outcome is applied whatever the repository's
    status and dependencies are by then: INDEXED on success, FAILED
    otherwise, committed and broadcast right after the resolution, and
    the submission is no longer in flight. *)
Theorem settle_applies_outcome
        (w : World) (k : nat) (net : nat -> AxiosOutcome)
        (t : Task) (row : Row) :
  inflight w !! k = Some t ->
  repos (store w) !! taskRepoId t = Some row ->
  let out :=
    ExternalAIService.sendRepositoryToAI (apiUrl EXTERNAL_AI_API_URL) net
      (taskProjectId t) (taskUrl t) (taskRepoId t) in
  let st := outcomeStatus (fst out) in
  let w' := snd (settle k net w) in
  statusOf (store w') (taskRepoId t) = Some st
  /\ inflight w' = delete k (inflight w)
  /\ deps (store w') = deps (store w)
  /\ trace w' =
     trace w
     ++ (Network k <$> snd out)
     ++ [SubmitResolved k (fst out);
         StatusCommitted (taskRepoId t) st;
         Emit "repository:updated" (taskProjectId t)
              (toRepository (taskRepoId t) (rowWithStatus row st))].
Proof.
  intros Hk Hr. unfold ProjectController.settle. rewrite Hk.
  destruct (ExternalAIService.sendRepositoryToAI _ _ _ _ _)
    as [result io].
  unfold onFulfilled, onRejected, outcomeStatus, statusOf. unfold_M.
  unfold updateRepoStatus. simpl.
  destruct (success result);
    repeat (progress (simpl; rewrite ?Hr));
    rewrite lookup_insert_eq, <- !app_assoc; done.
Qed.

(** X10: asking for a dependency a second time answers as the first
    time and changes nothing: the edge is not duplicated, and nothing
    more is committed, broadcast or submitted. *)
Theorem createDependency_twice (w : World) (s t : string) :
  createDependency s t (snd (createDependency s t w))
  = (fst (createDependency s t w), snd (createDependency s t w)).
Proof.
  unfold createDependency. unfold_M.
  unfold addDependency, getRepo, updateRepoStatus. simpl.
  destruct (repos (store w) !! s) as [rs|] eqn:Hs; simpl;
    [|by rewrite Hs].
  destruct (repos (store w) !! t) as [rt|] eqn:Ht; simpl;
    [|by rewrite Hs, Ht].
  assert (Idem : {[(s, t)]} ∪ ({[(s, t)]} ∪ deps (store w))
                 = {[(s, t)]} ∪ deps (store w))
    by (by rewrite (assoc_L (∪)), (idemp_L (∪))).
  repeat (progress (simpl; rewrite ?Hs, ?Ht)).
  destruct (rowStatus rt) eqn:Est;
    repeat (progress (simpl; rewrite ?Hs, ?Ht, ?Est, ?Idem)); try done.
  destruct (decide (s = t)) as [->|Hne].
  - repeat (progress (simpl; rewrite ?lookup_insert_eq, ?Idem)). done.
  - repeat (progress (simpl;
                      rewrite ?lookup_insert_eq, ?lookup_insert_ne, ?Hs,
                        ?Idem by done)).
    done.
Qed.

(** X11: a creation the store refuses is answered with status 400
    when the message of the error starts with SERVER_REQUIRED and with
    500 otherwise, carrying the message; nothing is stored, broadcast
    or submitted. *)
Theorem addRepo_refused
        (w : World) (projectId name url type msg : string) :
  refusal (store w) projectId name url type = Some msg ->
  addRepo refusal projectId name url type w
  = (inr (mkResponse
            (if Js.startsWith msg "SERVER_REQUIRED" then 400 else 500)
            (ErrorBody msg)),
     w).
Proof.
  intros Hr. unfold addRepo, ProjectService.addRepo. unfold_M. simpl.
  rewrite Hr. simpl. by destruct (Js.startsWith msg "SERVER_REQUIRED").
Qed.

(** X12: removing a dependency neither starts nor cancels a
    submission: the submissions in flight are the same afterwards,
    also the one for a target that has just been orphaned. *)
Theorem deleteDependency_keeps_submissions (w : World) (s t : string) :
  let w' := snd (deleteDependency s t w) in
  inflight w' = inflight w
  /\ nextTask w' = nextTask w
  /\ submissions (trace w') = submissions (trace w).
Proof.
  unfold deleteDependency. unfold_M.
  unfold removeDependency, countIncomingDependencies, getRepo,
    updateRepoStatus. simpl.
  case_decide as Hd; simpl; [|done].
  match goal with
  | |- context [(?n =? 0)%nat] => destruct (n =? 0)%nat
  end; simpl; [|done].
  destruct (repos (store w) !! t) as [rt|] eqn:Ht; simpl; [|done].
  destruct (String.eqb_spec (rowType rt) "SERVER") as [Hty|Hty]; simpl;
    [done|].
  rewrite Ht. simpl. rewrite !submissions_app. simpl.
  by rewrite !app_nil_r.
Qed.


End Handlers.

End StepFacts.

(** ** More about whole runs *)

Module RunFacts.

Import ProjectService ProjectController Observations Lifecycle.
Import OrchestratorFacts.

Section Runs.

Variable refusal : Store -> string -> string -> string -> string
                   -> option string.
Variable EXTERNAL_AI_API_URL : option string.

Abbreviation settle := (settle EXTERNAL_AI_API_URL).
Abbreviation step := (step refusal EXTERNAL_AI_API_URL).
Abbreviation run := (run refusal EXTERNAL_AI_API_URL).

Ltac quiet := exists []; rewrite app_nil_r; split; [done | by constructor].

Lemma addRepo_transition (w : World) (p n u t : string) :
  let w' := snd (addRepo refusal p n u t w) in
  exists delta, trace w' = trace w ++ delta /\ Transition w w' delta.
Proof.
  unfold addRepo, ProjectService.addRepo. unfold_M. simpl.
  destruct (refusal (store w) p n u t) as [msg|]; simpl.
  - destruct (Js.startsWith msg "SERVER_REQUIRED"); simpl; quiet.
  - destruct (String.eqb_spec t "SERVER") as [->|Hne]; simpl.
    + eexists. rewrite <- !app_assoc. simpl. split; [reflexivity|].
      by eapply (TrSubmit _ _ _ (mkRow p n u "SERVER" PENDING)).
    + eexists. rewrite <- !app_assoc. simpl. split; [reflexivity|].
      by eapply (TrUntracked _ _ _ (mkRow p n u t UNTRACKED)).
Qed.

Lemma createDependency_transition (w : World) (s t : string) :
  let w' := snd (createDependency s t w) in
  exists delta, trace w' = trace w ++ delta /\ Transition w w' delta.
Proof.
  unfold createDependency. unfold_M.
  unfold addDependency, getRepo, updateRepoStatus. simpl.
  destruct (repos (store w) !! s) as [rs|] eqn:Hs; simpl; [|quiet].
  destruct (repos (store w) !! t) as [rt|] eqn:Ht; simpl; [|quiet].
  repeat (progress (simpl; rewrite ?Hs, ?Ht)).
  destruct (rowStatus rt) eqn:Est; simpl; try quiet.
  rewrite Ht. simpl.
  eexists. rewrite <- !app_assoc. simpl. split; [reflexivity|].
  by eapply (TrSubmit _ _ _ (rowWithStatus rt PENDING)).
Qed.

Lemma deleteDependency_transition (w : World) (s t : string) :
  let w' := snd (deleteDependency s t w) in
  exists delta, trace w' = trace w ++ delta /\ Transition w w' delta.
Proof.
  unfold deleteDependency. unfold_M.
  unfold removeDependency, countIncomingDependencies, getRepo,
    updateRepoStatus. simpl.
  case_decide as Hd; simpl; [|quiet].
  match goal with
  | |- context [(?n =? 0)%nat] => destruct (n =? 0)%nat
  end; simpl; [|quiet].
  destruct (repos (store w) !! t) as [rt|] eqn:Ht; simpl; [|quiet].
  destruct (String.eqb_spec (rowType rt) "SERVER") as [Hty|Hty]; simpl;
    [quiet|].
  rewrite Ht. simpl.
  eexists. rewrite <- !app_assoc. simpl. split; [reflexivity|].
  by eapply (TrUntracked _ _ _ (rowWithStatus rt UNTRACKED)).
Qed.

Lemma settle_transition (w : World) (k : nat) (net : nat -> AxiosOutcome) :
  let w' := snd (settle k net w) in
  exists delta, trace w' = trace w ++ delta /\ Transition w w' delta.
Proof.
  unfold ProjectController.settle.
  destruct (inflight w !! k) as [t|] eqn:Hk; simpl; [|quiet].
  destruct (ExternalAIService.sendRepositoryToAI _ _ _ _ _)
    as [result io].
  unfold onFulfilled, onRejected. unfold_M. unfold updateRepoStatus.
  destruct (success result) eqn:Hres; simpl;
    (destruct (repos (store w) !! taskRepoId t) as [row|] eqn:Hr;
     repeat (progress (simpl; rewrite ?Hr));
     [ eexists; rewrite <- ?app_assoc; simpl; split; [reflexivity|];
       match goal with
       | |- context [StatusCommitted _ ?st] =>
           assert (Hst : outcomeStatus result = st)
             by (unfold outcomeStatus; by rewrite Hres);
           rewrite <- Hst
       end;
       by eapply TrSettle
     | eexists; rewrite <- ?app_assoc; simpl; split; [reflexivity|];
       by eapply TrDropped ]).
Qed.

Lemma step_transition (w : World) (q : Request) :
  exists delta, trace (step w q) = trace w ++ delta
                /\ Transition w (step w q) delta.
Proof.
  destruct q; simpl.
  - apply addRepo_transition.
  - apply createDependency_transition.
  - apply deleteDependency_transition.
  - apply settle_transition.
Qed.

Lemma transition_healthy (w w' : World) (delta : list Event) :
  healthy w -> Transition w w' delta -> healthy w'.
Proof.
  intros (Hpend & Hknown & Hbelow) Htr.
  unfold healthy, pendingHasSubmission, inflightKnown, inflightBelow.
  destruct Htr as [Hre Hin Hnx | r row ev p Hre Hst Hin Hnx
                   | r row ev p u Hre Hst Hin Hnx
                   | k t row res io Hk Hr Hre Hin Hnx
                   | k t res io Hk Hr Hre Hin Hnx];
    rewrite Hre, Hin, Hnx.
  - done.
  - split_and!; [| |done].
    + intros r' row' [[<- <-] | [_ Hr']]%lookup_insert_Some Hp;
        [congruence | by eauto].
    + intros k t Hk. apply lookup_insert_is_Some'. right. by eauto.
  - split_and!.
    + intros r' row' [[<- <-] | [Hne Hr']]%lookup_insert_Some Hp.
      * exists (nextTask w), (mkTask p u r). by rewrite lookup_insert_eq.
      * destruct (Hpend _ _ Hr' Hp) as (k & t & Hk & Ht).
        exists k, t. split; [|done].
        rewrite lookup_insert_ne; [done|].
        pose proof (Hbelow _ _ Hk). lia.
    + intros k t [[<- <-] | [_ Hk]]%lookup_insert_Some; simpl.
      * rewrite lookup_insert_eq. by eexists.
      * apply lookup_insert_is_Some'. right. by eauto.
    + intros k t [[<- <-] | [_ Hk]]%lookup_insert_Some; [lia|].
      pose proof (Hbelow _ _ Hk). lia.
  - split_and!.
    + intros r' row' [[<- <-] | [Hne Hr']]%lookup_insert_Some Hp.
      * simpl in Hp. unfold outcomeStatus in Hp.
        by destruct (success res).
      * destruct (Hpend _ _ Hr' Hp) as (k' & t' & Hk' & Ht').
        exists k', t'. split; [|done].
        rewrite lookup_delete_ne; [done|]. intros <-. congruence.
    + intros k' t' [_ Hk']%lookup_delete_Some.
      apply lookup_insert_is_Some'. right. by eauto.
    + intros k' t' [_ Hk']%lookup_delete_Some. by eauto.
  - split_and!.
    + intros r' row' Hr' Hp.
      destruct (Hpend _ _ Hr' Hp) as (k' & t' & Hk' & Ht').
      exists k', t'. split; [|done].
      rewrite lookup_delete_ne; [done|]. intros <-. congruence.
    + intros k' t' [_ Hk']%lookup_delete_Some. by eauto.
    + intros k' t' [_ Hk']%lookup_delete_Some. by eauto.
Qed.

Lemma initial_healthy : healthy initial.
Proof.
  split_and!.
  - intros r row Hr. simpl in Hr. by rewrite lookup_empty in Hr.
  - intros k t Hk. simpl in Hk. by rewrite lookup_empty in Hk.
  - intros k t Hk. simpl in Hk. by rewrite lookup_empty in Hk.
Qed.

Lemma run_healthy (qs : list Request) (w : World) :
  healthy w -> healthy (run qs w).
Proof.
  revert w. induction qs as [|q qs IH]; intros w Hw; [done|].
  simpl. apply IH.
  destruct (step_transition w q) as (delta & _ & Htr).
  by eapply transition_healthy.
Qed.

(** X14: in every run, a repository whose status is PENDING has a
    submission in flight: no repository is left PENDING with no
    outcome to come. *)
Theorem pending_has_a_submission_in_flight
        (qs : list Request) (r : string) (row : Row) :
  repos (store (run qs initial)) !! r = Some row ->
  rowStatus row = PENDING ->
  exists k t,
    inflight (run qs initial) !! k = Some t /\ taskRepoId t = r.
Proof.
  destruct (run_healthy qs initial initial_healthy) as (Hpend & _ & _).
  apply Hpend.
Qed.

(** X15: in every run, the outcome of a submission in flight is
    applied when it settles: its repository is still in the store, so
    the status becomes INDEXED or FAILED and the exception paths of the
    callbacks are never taken. *)
Theorem outcome_is_never_dropped
        (qs : list Request) (k : nat) (t : Task)
        (net : nat -> AxiosOutcome) :
  inflight (run qs initial) !! k = Some t ->
  statusOf (store (snd (settle k net (run qs initial)))) (taskRepoId t)
  = Some (outcomeStatus
            (fst (ExternalAIService.sendRepositoryToAI
                    (apiUrl EXTERNAL_AI_API_URL) net
                    (taskProjectId t) (taskUrl t) (taskRepoId t)))).
Proof.
  intros Hk.
  destruct (run_healthy qs initial initial_healthy) as (_ & Hknown & _).
  destruct (Hknown _ _ Hk) as [row Hr].
  by apply (StepFacts.settle_status_known EXTERNAL_AI_API_URL _ k net t row).
Qed.





End Runs.

End RunFacts.

(** ** Facts about the rules of an analysis *)

Module RulesFacts.

Import ProjectService(Exn, Error, messageOf).
Import Regex RulesAi.

#[local] Arguments String.append !_ _ / : simpl nomatch.

Abbreviation stars := (replaceAll [(Lit "*", 2%nat)] ".*").
Abbreviation star := (replaceAll [(Lit "*", 1%nat)] "[^/]*").
Abbreviation dot := (replaceAll [(Lit ".", 1%nat)] "\.").

Lemma app_assoc_string (a b c : string) :
  (a +:+ b) +:+ c = a +:+ (b +:+ c).
Proof. induction a as [|x a IH]; simpl; [done|]. by rewrite IH. Qed.

(** Replacing one character is done character by character. *)
Lemma replaceAll_char (l : ascii) (by_ : string) (c : ascii) (r : string) :
  replaceAll [(Lit l, 1%nat)] by_ (String c r)
  = (if Ascii.eqb l c then by_ else String c EmptyString)
    +:+ replaceAll [(Lit l, 1%nat)] by_ r.
Proof.
  unfold replaceAll. simpl. by destruct (Ascii.eqb l c).
Qed.

Lemma replaceAll_char_app (l : ascii) (by_ a b : string) :
  replaceAll [(Lit l, 1%nat)] by_ (a +:+ b)
  = replaceAll [(Lit l, 1%nat)] by_ a +:+ replaceAll [(Lit l, 1%nat)] by_ b.
Proof.
  induction a as [|c a IH]; [done|].
  change (String c a +:+ b) with (String c (a +:+ b)).
  by rewrite !replaceAll_char, IH, app_assoc_string.
Qed.

Lemma stars_pair (r : string) :
  stars (String "*" (String "*" r)) = ".*" +:+ stars r.
Proof. reflexivity. Qed.

Lemma stars_other (c : ascii) (r : string) :
  (c <> "*"%char \/ forall r', r <> String "*" r') ->
  stars (String c r) = String c (stars r).
Proof.
  intros H. unfold replaceAll.
  cbn [replaceFrom matchHere matchRepeat atomMatches sameChar].
  destruct (Ascii.eqb_spec "*" c) as [<-|Hc]; [|done].
  destruct r as [|d r]; [done|].
  destruct (Ascii.eqb_spec "*" d) as [<-|Hd]; [|done].
  destruct H as [H|H]; [done | by destruct (H r)].
Qed.

Lemma onePass_star (r : string) :
  (forall r', r <> String "*" r') ->
  onePass (String "*" r) = "[^/]*" +:+ onePass r.
Proof.
  intros H. destruct r as [|d r]; [done|].
  destruct d as [[] [] [] [] [] [] [] []]; try reflexivity.
  by destruct (H r).
Qed.

Lemma onePass_other (c : ascii) (r : string) :
  c <> "*"%char -> c <> "."%char ->
  onePass (String c r) = String c (onePass r).
Proof.
  intros H1 H2. destruct c as [[] [] [] [] [] [] [] []];
    try reflexivity; done.
Qed.

(** X17: the three chained replacements that turn a file pattern into
    the source of a regular expression amount to one pass from left to
    right in which [**] becomes [\.[^/]*] (a dot, then characters other
    than a slash), a single [*] becomes [[^/]*] and [.] becomes [\.]:
    the [.*] written for [**] does not survive the two later
    replacements. *)
Theorem regExpSource_one_pass (filePattern : string) :
  regExpSource filePattern = onePass filePattern.
Proof.
  unfold regExpSource.
  assert (H : forall n s, (String.length s <= n)%nat ->
                dot (star (stars s)) = onePass s).
  { induction n as [|n IH]; intros s Hn.
    { destruct s; [done | simpl in Hn; lia]. }
    destruct s as [|c r]; [done|]. simpl in Hn.
    destruct (Ascii.eqb_spec c "*") as [->|Hstar].
    - destruct r as [|d r'].
      + reflexivity.
      + destruct (Ascii.eqb_spec d "*") as [->|Hd].
        * rewrite stars_pair, !replaceAll_char_app.
          rewrite IH by (simpl in *; lia). reflexivity.
        * rewrite stars_other by (right; intros r'' [= ? _]; done).
          rewrite replaceAll_char. simpl Ascii.eqb. cbv iota.
          rewrite replaceAll_char_app, IH by (simpl in *; lia).
          rewrite onePass_star by (intros r'' [= ? _]; done).
          reflexivity.
    - rewrite stars_other by (by left).
      rewrite replaceAll_char.
      destruct (Ascii.eqb_spec "*" c) as [<-|_]; [done|].
      change (String c "" +:+ ?x) with (String c x).
      rewrite replaceAll_char, IH by lia.
      destruct (Ascii.eqb_spec "." c) as [<-|Hdot]; [done|].
      by rewrite onePass_other. }
  by apply (H (String.length filePattern)).
Qed.

Section Engine.

Variable RegExp_test : string -> string -> Exn + bool.

Abbreviation ruleApplies := (ruleApplies RegExp_test).
Abbreviation filterRulesByFilePath := (filterRulesByFilePath RegExp_test).
Abbreviation applicableRules := (applicableRules RegExp_test).

Lemma filterRulesByFilePath_inr (rules kept : list Rule) (path : string) :
  filterRulesByFilePath rules path = inr kept ->
  kept `sublist_of` rules
  /\ forall r, r ∈ kept <-> r ∈ rules /\ ruleApplies r path = inr true.
Proof.
  revert kept. induction rules as [|rule rest IH]; intros kept; simpl.
  { intros [= <-]. split; [done|]. intros r. split.
    - by intros ?%elem_of_nil.
    - by intros [?%elem_of_nil _]. }
  destruct (ruleApplies rule path) as [e|keep] eqn:Ha; [done|].
  destruct (filterRulesByFilePath rest path) as [e|rest'] eqn:Hrest; [done|].
  intros [= <-]. destruct (IH rest' eq_refl) as [Hsub Hall].
  split; [destruct keep; by constructor|].
  intros r. rewrite elem_of_cons. destruct keep.
  - rewrite elem_of_cons, Hall. split.
    + intros [-> | [? ?]]; [split; [by left | done] | split; [by right|done]].
    + intros [[-> | ?] ?]; [by left | by right].
  - rewrite Hall. split.
    + intros [? ?]. split; [by right | done].
    + intros [[-> | ?] ?]; [congruence | done].
Qed.

Lemma filterRulesByFilePath_inl (rules : list Rule) (path : string) :
  (exists e, filterRulesByFilePath rules path = inl e)
  <-> exists r e, r ∈ rules /\ ruleApplies r path = inl e.
Proof.
  induction rules as [|rule rest IH]; simpl.
  { split; [by intros [? ?] | by intros (? & ? & ?%elem_of_nil & _)]. }
  destruct (ruleApplies rule path) as [e|keep] eqn:Ha.
  - split; [|by eauto]. intros _. exists rule, e. split; [by left | done].
  - destruct (filterRulesByFilePath rest path) as [e|rest'] eqn:Hrest.
    + split; [|by eauto]. intros _.
      destruct (proj1 IH (ex_intro _ e eq_refl)) as (r & e' & Hr & He).
      exists r, e'. split; [by right | done].
    + split; [by intros [? ?]|].
      intros (r & e & [-> | Hr]%elem_of_cons & He); [congruence|].
      destruct (proj2 IH) as [? ?]; [by eauto | done].
Qed.

Lemma elem_of_normalizeRules (rules : RulesInput) (r : Rule) :
  r ∈ normalizeRules rules <-> r ∈ listed rules /\ isEnabled r = true.
Proof.
  rewrite !list_elem_of_In.
  destruct rules; simpl; rewrite ?filter_In; [done | done |].
  split; [done | by intros [? _]].
Qed.

Lemma normalizeRules_sublist (rules : RulesInput) :
  normalizeRules rules `sublist_of` listed rules.
Proof.
  assert (H : forall l : list Rule, List.filter isEnabled l `sublist_of` l).
  { induction l as [|r l IH]; simpl; [done|].
    destruct (isEnabled r); by constructor. }
  destruct rules; simpl; auto.
Qed.

(** X18: when the rules of a request are selected for a file, the
    selection keeps the order of the list, and a rule is selected
    exactly when it is listed, is not disabled ([enabled] is not
    [false]), and either has no file pattern or has one whose regular
    expression matches the path. A disabled rule is never selected. *)
Theorem applicable_rules_selected
        (rules : RulesInput) (filePath : option string)
        (selected : list Rule) :
  applicableRules rules filePath = inr selected ->
  selected `sublist_of` listed rules
  /\ forall r,
       r ∈ selected
       <-> r ∈ listed rules
           /\ enabled r <> Some false
           /\ (Js.truthyStr (filePattern r) = false
               \/ RegExp_test (regExpSource (default "" (filePattern r)))
                              (Js.orStr filePath "") = inr true).
Proof.
  unfold RulesAi.applicableRules. intros H.
  destruct (filterRulesByFilePath_inr _ _ _ H) as [Hsub Hall].
  split; [by etrans; [|apply normalizeRules_sublist]|].
  intros r. rewrite Hall, elem_of_normalizeRules.
  unfold RulesAi.ruleApplies, isEnabled.
  destruct (enabled r) as [[]|]; destruct (Js.truthyStr (filePattern r));
    simpl; intuition congruence.
Qed.

(** X19: the selection fails exactly when the regular-expression
    engine rejects the source built from the pattern of a rule that is
    listed and not disabled; the patterns of disabled rules are never
    compiled. *)
Theorem applicable_rules_fail
        (rules : RulesInput) (filePath : option string) :
  (exists e, applicableRules rules filePath = inl e)
  <-> exists r e,
        r ∈ listed rules
        /\ enabled r <> Some false
        /\ Js.truthyStr (filePattern r) = true
        /\ RegExp_test (regExpSource (default "" (filePattern r)))
                       (Js.orStr filePath "") = inl e.
Proof.
  unfold RulesAi.applicableRules. rewrite filterRulesByFilePath_inl.
  split.
  - intros (r & e & [Hr Hen]%elem_of_normalizeRules & He).
    exists r, e. unfold RulesAi.ruleApplies, isEnabled in *.
    destruct (enabled r) as [[]|]; destruct (Js.truthyStr (filePattern r));
      simpl in *; intuition congruence.
  - intros (r & e & Hr & Hen & Hp & He). exists r, e.
    rewrite elem_of_normalizeRules.
    unfold RulesAi.ruleApplies, isEnabled. rewrite Hp. simpl.
    destruct (enabled r) as [[]|]; intuition congruence.
Qed.

End Engine.

End RulesFacts.

(** ** Facts about the answer of an analysis *)

Module AnalyzeFacts.

Import ProjectService(Exn, Error, messageOf).
Import RulesController.

#[local] Arguments String.append !_ _ / : simpl nomatch.

Section Map.

Context {V : Type}.

Lemma elem_of_mapSet (k : string) (v : V) (m : list (string * V))
      (k' : string) (v' : V) :
  NoDup (fst <$> m) ->
  (k', v') ∈ mapSet k v m
  <-> (k' = k /\ v' = v) \/ (k' <> k /\ (k', v') ∈ m).
Proof.
  induction m as [|[k0 v0] m IH]; simpl.
  { intros _. rewrite list_elem_of_singleton. split.
    - intros [= -> ->]. by left.
    - intros [[-> ->] | [_ ?%elem_of_nil]]; done. }
  intros [Hk0 Hm]%NoDup_cons.
  destruct (String.eqb_spec k k0) as [<-|Hne].
  - rewrite !elem_of_cons. split.
    + intros [[= -> ->] | Hin]; [by left|]. right. split; [|by right].
      intros ->. apply Hk0. apply list_elem_of_fmap. by exists (k, v').
    + intros [[-> ->] | [Hne [[= ? ?] | Hin]]]; [by left | done | by right].
  - rewrite !elem_of_cons, (IH Hm). split.
    + intros [[= -> ->] | [[-> ->] | [? ?]]].
      * right. split; [done | by left].
      * by left.
      * right. split; [done | by right].
    + intros [[-> ->] | [? [[= -> ->] | ?]]].
      * right. by left.
      * by left.
      * right. right. by split.
Qed.

Lemma mapSet_keys (k : string) (v : V) (m : list (string * V)) :
  fst <$> mapSet k v m
  = if decide (k ∈ fst <$> m) then fst <$> m else (fst <$> m) ++ [k].
Proof.
  induction m as [|[k0 v0] m IH]; [done|].
  cbn [mapSet]. rewrite fmap_cons. cbn [fst].
  destruct (String.eqb_spec k k0) as [<-|Hne].
  - rewrite fmap_cons, decide_True by (by left). done.
  - rewrite fmap_cons, IH. cbn [fst].
    destruct (decide (k ∈ fst <$> m)) as [Hin|Hin].
    + rewrite decide_True by (by right). done.
    + rewrite decide_False; [done|].
      by intros [?|?]%elem_of_cons.
Qed.

Lemma mapSet_NoDup (k : string) (v : V) (m : list (string * V)) :
  NoDup (fst <$> m) -> NoDup (fst <$> mapSet k v m).
Proof.
  intros Hm. rewrite mapSet_keys. case_decide as Hin; [done|].
  apply NoDup_app. split_and!; [done| |apply NoDup_singleton].
  intros x Hx ->%list_elem_of_singleton. done.
Qed.

Lemma mapSet_length (k : string) (v : V) (m : list (string * V)) :
  (length (mapSet k v m) <= S (length m))%nat.
Proof.
  induction m as [|[k0 v0] m IH]; simpl; [done|].
  destruct (String.eqb k k0); simpl; lia.
Qed.

End Map.

Lemma snoc_eq_middle {A : Type} (l pre post : list A) (x v : A) :
  l ++ [x] = pre ++ v :: post ->
  (post = [] /\ v = x /\ pre = l)
  \/ exists post', post = post' ++ [x] /\ l = pre ++ v :: post'.
Proof.
  destruct post as [|y post _] using rev_ind.
  - intros [-> ->]%app_inj_tail. by left.
  - rewrite app_comm_cons, app_assoc. intros [-> ->]%app_inj_tail.
    right. by exists post.
Qed.

Lemma newMap_spec (vs : list Violation) :
  let m := newMap (map (fun v => (keyOf v, v)) vs) in
  NoDup (fst <$> m)
  /\ (length m <= length vs)%nat
  /\ forall k v, (k, v) ∈ m <-> keyOf v = k /\ lastWithKey vs v.
Proof.
  induction vs as [|x vs IH] using rev_ind; simpl.
  { split_and!; [constructor | done |]. intros k v. split.
    - by intros ?%elem_of_nil.
    - intros (_ & pre & post & H & _). by destruct pre. }
  unfold newMap in *. rewrite map_app, fold_left_app. simpl.
  destruct IH as (Hnd & Hlen & Hin).
  set (m := fold_left _ _ _) in *.
  split_and!.
  - by apply mapSet_NoDup.
  - rewrite length_app. simpl. pose proof (mapSet_length (keyOf x) x m). lia.
  - intros k v. rewrite (elem_of_mapSet _ _ _ _ _ Hnd), Hin. split.
    + intros [[-> ->] | (Hne & Hk & pre & post & -> & Hpost)].
      * split; [done|]. exists vs, []. split; [done|].
        by intros v' ?%elem_of_nil.
      * split; [done|]. exists pre, (post ++ [x]).
        split; [by rewrite <- app_assoc|].
        intros v' [? | ->%list_elem_of_singleton]%elem_of_app;
          [by auto | congruence].
    + intros (Hk & pre & post & Heq & Hpost).
      destruct (snoc_eq_middle _ _ _ _ _ Heq)
        as [(-> & -> & ->) | (post' & -> & ->)]; [by left|].
      right. split.
      * intros ->. apply (Hpost x); [|done].
        apply elem_of_app. right. by left.
      * split; [done|]. exists pre, post'. split; [done|].
        intros v' Hv'. apply Hpost, elem_of_app. by left.
Qed.

Lemma keys_of_unique (vs : list Violation) :
  keyOf <$> uniqueViolations vs
  = fst <$> newMap (map (fun v => (keyOf v, v)) vs).
Proof.
  destruct (newMap_spec vs) as (_ & _ & Hin). unfold uniqueViolations, values.
  set (m := newMap _) in *.
  assert (Hk : forall k v, (k, v) ∈ m -> keyOf v = k)
    by (intros k v H; by apply Hin in H as [? _]).
  clearbody m. clear Hin.
  induction m as [|[k v] m IH]; [done|].
  cbn [map snd]. rewrite !fmap_cons. cbn [fst].
  rewrite IH by (intros k' v' H'; apply Hk; by right).
  by rewrite (Hk k v) by (by left).
Qed.

Lemma elem_of_uniqueViolations (vs : list Violation) (v : Violation) :
  v ∈ uniqueViolations vs
  <-> (keyOf v, v) ∈ newMap (map (fun v => (keyOf v, v)) vs).
Proof.
  destruct (newMap_spec vs) as (_ & _ & Hin).
  unfold uniqueViolations, values. rewrite list_elem_of_fmap. split.
  - intros ([k v'] & -> & H). simpl.
    by destruct (proj1 (Hin k v') H) as [-> _].
  - intros H. by exists (keyOf v, v).
Qed.

(** X20: the violations an analysis answers with are the violations
    found, each one kept when no later one has the same key (the rule,
    a hyphen and the line): for each key the last one found wins. *)
Theorem unique_violations_are_the_last
        (vs : list Violation) (v : Violation) :
  v ∈ uniqueViolations vs <-> lastWithKey vs v.
Proof.
  destruct (newMap_spec vs) as (_ & _ & Hin).
  rewrite elem_of_uniqueViolations, Hin. split.
  - by intros [_ ?].
  - by intros ?.
Qed.

(** *** Keys and (rule, line) pairs *)

Abbreviation noDash :=
  (Spec.allChars (fun c => negb (Ascii.eqb c "-"))).







(** With a negative line the key no longer tells rule and line apart:
    these two violations share the key "a--1", and only the second is
    answered. *)
Example negative_lines_collide :
  uniqueViolations [mkViolation "a-" 1 "first" None;
                    mkViolation "a" (-1) "second" None]
  = [mkViolation "a" (-1) "second" None].
Proof. reflexivity. Qed.

Section Analyze.

Variable analyzeCodeWithAI :
  string -> string -> RulesAi.RulesInput -> option string
  -> Exn + list Violation.

(** X22: when an analysis answers with violations, no two of them have
    the same key, the total of the summary is their number, and it is
    at most the number the summary gives for the violations found. *)
Theorem analysis_has_one_violation_per_key
        (req : AnalyzeRequest) (violations : list Violation)
        (total ai : nat) :
  analyze analyzeCodeWithAI req = Analysis violations total ai ->
  NoDup (keyOf <$> violations)
  /\ total = length violations
  /\ (total <= ai)%nat.
Proof.
  unfold analyze. destruct (rules req) as [rs|]; [|done].
  destruct (negb _ || negb _); [done|].
  destruct (analyzeCodeWithAI _ _ _ _) as [e|vs]; [done|].
  intros [= <- <- <-].
  destruct (newMap_spec vs) as (Hnd & Hlen & _).
  rewrite keys_of_unique. split_and!; [done | done |].
  unfold uniqueViolations, values. by rewrite length_map.
Qed.

End Analyze.

End AnalyzeFacts.

(** ** The further theorems at work on the example data *)

Module MoreInstances.

Import ExternalAIService ProjectService ProjectController Spec Observations.
Import Attempts Lifecycle RulesAi RulesController Examples MoreExamples.

Lemma flaky_succeeds_on_third_attempt :
  sendRepositoryToAI "http://localhost:8000" flaky P
                     "https://git.example/b.git" "repo-1"
  = (if (200 =? 200) || (200 =? 201) then mkResult true None
     else mkResult false (Some ("Unexpected status: " +:+ pretty 200)),
     attemptLog "http://localhost:8000" P "https://git.example/b.git" 2).
Proof.
  apply (AttemptFacts.response_ends_the_call "http://localhost:8000" flaky
           P "https://git.example/b.git" "repo-1" 2 200);
    [reflexivity | reflexivity | lia | | reflexivity].
  intros [|[|j]] Hj; [reflexivity | reflexivity | lia].
Defined.

Lemma not_found_on_second_attempt :
  sendRepositoryToAI "http://localhost:8000" thenNotFound P
                     "https://git.example/b.git" "repo-1"
  = (mkResult false (Some ("Client error: " +:+ "no such route")),
     attemptLog "http://localhost:8000" P "https://git.example/b.git" 1).
Proof.
  apply (AttemptFacts.client_error_ends_the_call "http://localhost:8000"
           thenNotFound P "https://git.example/b.git" "repo-1" 1
           (mkAxiosError (Some (mkErrorResponse 404 (Some "no such route")))
                         None "Request failed with status code 404"));
    [reflexivity | reflexivity | lia | | reflexivity | reflexivity].
  intros [|j] Hj; [reflexivity | lia].
Defined.

Lemma always_503_reports_last_error :
  sendRepositoryToAI "http://localhost:8000" (fun _ => error503) P
                     "https://git.example/b.git" "repo-1"
  = (mkResult false (Some "Request failed with status code 503"),
     attemptLog "http://localhost:8000" P "https://git.example/b.git" 2).
Proof.
  apply (AttemptFacts.exhaustion_reports_last_error "http://localhost:8000"
           (fun _ => error503) P "https://git.example/b.git" "repo-1"
           (mkAxiosError (Some (mkErrorResponse 503 None)) None
                         "Request failed with status code 503"));
    [reflexivity | reflexivity | | reflexivity].
  intros j Hj. reflexivity.
Defined.

Lemma P_has_36_characters : String.length P = 36%nat.
Proof.
  apply (ValidatorFacts.valid_uuid_has_36_characters P). reflexivity.
Defined.

Lemma https_with_anything_appended :
  isValidGitUrl ("https://" +:+ " not a url") = true.
Proof.
  apply (ValidatorFacts.isValidGitUrl_looks_at_prefix "https://"
           " not a url").
  reflexivity.
Defined.

Lemma settle_B_while_indexing :
  let out :=
    sendRepositoryToAI (apiUrl None) (fun _ => Resolved 200)
      (taskProjectId taskB) (taskUrl taskB) (taskRepoId taskB) in
  let st := outcomeStatus (fst out) in
  let w' := snd (settle None 1 (fun _ => Resolved 200) indexing) in
  statusOf (store w') (taskRepoId taskB) = Some st
  /\ inflight w' = delete 1%nat (inflight indexing)
  /\ deps (store w') = deps (store indexing)
  /\ trace w' =
     trace indexing
     ++ (Network 1 <$> snd out)
     ++ [SubmitResolved 1 (fst out);
         StatusCommitted (taskRepoId taskB) st;
         Emit "repository:updated" (taskProjectId taskB)
              (toRepository (taskRepoId taskB)
                            (rowWithStatus (rowB PENDING) st))].
Proof.
  apply (StepFacts.settle_applies_outcome None indexing 1
           (fun _ => Resolved 200) taskB (rowB PENDING)); reflexivity.
Defined.

Lemma web_repository_refused_without_server :
  addRepo serverFirst P "B" "https://git.example/b.git" "WEB" initial
  = (inr (mkResponse
            (if Js.startsWith
                  "SERVER_REQUIRED: add a server repository first"
                  "SERVER_REQUIRED"
             then 400 else 500)
            (ErrorBody "SERVER_REQUIRED: add a server repository first")),
     initial).
Proof.
  apply (StepFacts.addRepo_refused serverFirst initial P "B"
           "https://git.example/b.git" "WEB"
           "SERVER_REQUIRED: add a server repository first").
  reflexivity.
Defined.

Lemma pending_A_has_its_submission :
  exists k t,
    inflight (run noRefusal None scenario initial) !! k = Some t
    /\ taskRepoId t = "repo-0".
Proof.
  apply (RunFacts.pending_has_a_submission_in_flight noRefusal None scenario
           "repo-0" rowA); reflexivity.
Defined.

Lemma outcome_of_A_is_applied :
  statusOf
    (store (snd (settle None 0 (fun _ => error404)
                        (run noRefusal None scenario initial))))
    (taskRepoId taskA)
  = Some (outcomeStatus
            (fst (sendRepositoryToAI (apiUrl None) (fun _ => error404)
                    (taskProjectId taskA) (taskUrl taskA)
                    (taskRepoId taskA)))).
Proof.
  apply (RunFacts.outcome_is_never_dropped noRefusal None scenario 0 taskA
           (fun _ => error404)).
  reflexivity.
Defined.

Lemma rules_selected_for_App :
  [noConsole] `sublist_of` listed (Direct [noConsole; hooksOnly; retired])
  /\ forall r,
       r ∈ [noConsole]
       <-> r ∈ listed (Direct [noConsole; hooksOnly; retired])
           /\ enabled r <> Some false
           /\ (Js.truthyStr (filePattern r) = false
               \/ engine (regExpSource (default "" (filePattern r)))
                         (Js.orStr (Some "src/App.tsx") "") = inr true).
Proof.
  apply (RulesFacts.applicable_rules_selected engine
           (Direct [noConsole; hooksOnly; retired]) (Some "src/App.tsx")
           [noConsole]).
  reflexivity.
Defined.

Lemma analysis_of_the_request :
  NoDup (keyOf <$> uniqueViolations found)
  /\ 2%nat = length (uniqueViolations found)
  /\ (2 <= 3)%nat.
Proof.
  apply (AnalyzeFacts.analysis_has_one_violation_per_key
           (fun _ _ _ _ => inr found) analysisRequest
           (uniqueViolations found) 2 3).
  reflexivity.
Defined.


(** The client on a few more networks, and the rules on a few files. *)
Example created_is_a_success :
  fst (sendRepositoryToAI "http://localhost:8000" (fun _ => Resolved 201) P
                          "https://git.example/b.git" "repo-1")
  = mkResult true None.
Proof. reflexivity. Qed.

Example late_outcome_overrides_orphan :
  statusOf
    (store (run noRefusal None
                (take 3 scenario
                 ++ [DeleteDependency "repo-0" "repo-1";
                     Settle 1 (fun _ => Resolved 200)])
                initial))
    "repo-1"
  = Some INDEXED.
Proof. reflexivity. Qed.

Example hooks_pattern_source :
  regExpSource "src/hooks/*.ts" = "src/hooks/[^/]*\.ts".
Proof. reflexivity. Qed.

Example double_star_source :
  regExpSource "src/**/*.ts" = "src/\.[^/]*/[^/]*\.ts".
Proof. reflexivity. Qed.

Example rules_for_a_hook :
  applicableRules engine (Direct [noConsole; hooksOnly; retired])
                  (Some "src/hooks/useThing.ts")
  = inr [noConsole; hooksOnly].
Proof. reflexivity. Qed.

Example bad_pattern_of_enabled_rule :
  applicableRules engine
    (Wrapped [noConsole;
              mkRule "broken" "Broken" "bad pattern" None None (Some "(")])
    None
  = inl (Error "Invalid regular expression").
Proof. reflexivity. Qed.

Example analysis_answer :
  analyze (fun _ _ _ _ => inr found) analysisRequest
  = Analysis
      [ mkViolation "no-console" 12 "console.log left in" (Some "warning");
        mkViolation "hooks-only" 3 "hook outside src/hooks" None ]
      2 3.
Proof. reflexivity. Qed.

Example analysis_without_code :
  analyze (fun _ _ _ _ => inr found)
          (mkAnalyzeRequest (Some "") (Some "react") (Some OldFormat) None)
  = AnalyzeError 400 "Missing required fields: code, fileType, or rules".
Proof. reflexivity. Qed.

Example analysis_failure :
  analyze (fun _ _ _ _ => inl (Error "")) analysisRequest
  = AnalyzeError 500 "Failed to analyze code".
Proof. reflexivity. Qed.

End MoreInstances.
